(** * Stellar luminosity demo (StellarGraph/stellar_graph.py)

    A shallow embedding of the Streamlit script: the Stefan-Boltzmann
    function [luminosity] on the slider's int and on the float samples
    of the curve, the colour normalisation, the text block that splits
    the scientific notation of the luminosity, and the session state
    that the slider edits.

    Python's [float] is IEEE-754 binary64; it is modelled by Rocq's
    primitive [float], whose operations are the same correctly rounded
    binary64 operations.  Python's [int] is modelled by [Z]. *)

From stdpp Require Import gmap strings.
From Stdlib Require Import ZArith QArith Qabs Qpower Qfield Floats Reals Qreals Psatz Machin.
From Stdlib Require Import List Ascii String DecimalString.
Import ListNotations.

#[local] Set Warnings "-inexact-float".

(** ** Python numbers *)

Module PyFloat.

(** [float(n)] for a Python int: the nearest binary64 number, ties to
    even; [None] stands for [OverflowError] (int too large to convert
    to float). *)
Definition float_of_int (n : Z) : option float :=
  match binary_normalize prec emax n 0 false with
  | S754_infinity _ => None
  | sf => Some (SF2Prim sf)
  end.

(** The rational number a finite float denotes (0 for infinities and
    NaN, which [is_finite] tells apart). *)
Definition SF2Q (sf : spec_float) : Q :=
  match sf with
  | S754_finite s m e => inject_Z (cond_Zopp s (Zpos m)) * Qpower 2 e
  | _ => 0
  end.

Definition F2Q (x : float) : Q := SF2Q (Prim2SF x).

(** A Python int as an exact (unrounded) operand of a float operation. *)
Definition Z2SF (n : Z) : spec_float :=
  match n with
  | Z0 => S754_zero false
  | Zpos p => S754_finite false p 0
  | Zneg p => S754_finite true p 0
  end.

(** [a / b] on Python ints (true division): the correctly rounded
    quotient of the exact integers; [None] stands for
    [ZeroDivisionError] and for [OverflowError]. *)
Definition int_truediv (a b : Z) : option float :=
  if (b =? 0)%Z then None
  else match SFdiv prec emax (Z2SF a) (Z2SF b) with
       | S754_infinity _ => None
       | sf => Some (SF2Prim sf)
       end.

(** *** Decimal output

    [format(x, '.2e')] and [format(x, '.1f')] print the correctly
    rounded decimal digits of the exact value of [x], ties to even. *)

(** [n / d] rounded to the nearest integer, ties to even
    ([0 <= n], [0 < d]). *)
Definition round_half_even (n d : Z) : Z :=
  let q := (n / d)%Z in
  match (2 * (n mod d) ?= d)%Z with
  | Lt => q
  | Gt => (q + 1)%Z
  | Eq => if Z.even q then q else (q + 1)%Z
  end.

(** While [10 * d <= n], multiply [d] by ten and count. *)
Fixpoint scale_down (fuel : nat) (n d e : Z) : Z * Z * Z :=
  match fuel with
  | O => (n, d, e)
  | S k => if (10 * d <=? n)%Z then scale_down k n (10 * d) (e + 1) else (n, d, e)
  end.

(** While [n < d], multiply [n] by ten and count down. *)
Fixpoint scale_up (fuel : nat) (n d e : Z) : Z * Z * Z :=
  match fuel with
  | O => (n, d, e)
  | S k => if (n <? d)%Z then scale_up k (10 * n) d (e - 1) else (n, d, e)
  end.

(** [(n', d', e)] with [n / d = n' / d' * 10^e] and [d' <= n' < 10 * d']:
    [e] is the decimal exponent of the positive rational [n / d].
    Every step multiplies by ten, so the binary lengths bound the
    number of steps. *)
Definition normalize10 (n d : Z) : Z * Z * Z :=
  let '(n1, d1, e1) := scale_down (S (Z.to_nat (Z.log2 n))) n d 0 in
  scale_up (S (Z.to_nat (Z.log2 d1))) n1 d1 e1.

(** Three significant digits [100 .. 999] and the decimal exponent. *)
Definition sci_digits (n d : Z) : Z * Z :=
  let '(n1, d1, e1) := normalize10 n d in
  let m := round_half_even (100 * n1) d1 in
  if (m =? 1000)%Z then (100, e1 + 1)%Z else (m, e1).

Definition digit (k : Z) : ascii :=
  match Z.to_nat k with
  | 0%nat => "0" | 1%nat => "1" | 2%nat => "2" | 3%nat => "3" | 4%nat => "4"
  | 5%nat => "5" | 6%nat => "6" | 7%nat => "7" | 8%nat => "8" | _ => "9"
  end%char.

Definition decimal (k : Z) : string :=
  NilZero.string_of_uint (N.to_uint (Z.to_N k)).

Definition sign_str (s : bool) : string := if s then "-" else "".

(** The mantissa [d.dd] of three significant digits. *)
Definition mantissa_str (m : Z) : string :=
  String (digit (m / 100)) (String "." (String (digit (m / 10 mod 10))
    (String (digit (m mod 10)) ""))).

(** The exponent digits, at least two of them. *)
Definition exponent_digits (e : Z) : string :=
  if (Z.abs e <? 10)%Z then String "0" (decimal (Z.abs e)) else decimal (Z.abs e).

Definition exponent_str (e : Z) : string :=
  String "e" (String (if (e <? 0)%Z then "-" else "+")%char (exponent_digits e)).

(** Numerator and denominator of [m * 2^e]. *)
Definition num (m : positive) (e : Z) : Z :=
  if (0 <=? e)%Z then (Zpos m * 2 ^ e)%Z else Zpos m.
Definition den (e : Z) : Z :=
  if (0 <=? e)%Z then 1%Z else (2 ^ (- e))%Z.

(** ['{:.2e}'.format(x)] *)
Definition format_2e (x : float) : string :=
  match Prim2SF x with
  | S754_nan => "nan"
  | S754_infinity s => sign_str s +:+ "inf"
  | S754_zero s => sign_str s +:+ "0.00e+00"
  | S754_finite s m e =>
      let '(m3, e10) := sci_digits (num m e) (den e) in
      sign_str s +:+ mantissa_str m3 +:+ exponent_str e10
  end.

(** [f'{x:1.1f}'] *)
Definition format_1f (x : float) : string :=
  match Prim2SF x with
  | S754_nan => "nan"
  | S754_infinity s => sign_str s +:+ "inf"
  | S754_zero s => sign_str s +:+ "0.0"
  | S754_finite s m e =>
      let t := round_half_even (10 * num m e) (den e) in
      sign_str s +:+ decimal (t / 10) +:+ String "." (String (digit (t mod 10)) "")
  end.

End PyFloat.

(** ** Python strings *)

Module PyStr.

(** [sub in s] *)
Fixpoint contains (sub s : string) : bool :=
  String.prefix sub s ||
  match s with
  | EmptyString => false
  | String _ s' => contains sub s'
  end.

(** [s.split(sep)] for a non-empty [sep], scanning from the left:
    [skip] counts the characters of a separator still to pass over,
    [cur] is the piece being read. *)
Fixpoint split_go (sep : string) (skip : nat) (cur : string) (s : string) : list string :=
  match s with
  | EmptyString => [cur]
  | String c s' =>
      match skip with
      | S k => split_go sep k cur s'
      | O =>
          if String.prefix sep s
          then cur :: split_go sep (String.length sep - 1) "" s'
          else split_go sep 0 (cur +:+ String c "") s'
      end
  end.

Definition split (sep s : string) : list string := split_go sep 0 "" s.

(** [a, b = l]: [None] stands for the [ValueError] of unpacking a
    list that has not exactly two items. *)
Definition unpack2 (l : list string) : option (string * string) :=
  match l with
  | [a; b] => Some (a, b)
  | _ => None
  end.

End PyStr.

(** ** The script *)

Module StellarGraph.
Import PyFloat.

Definition T_min : Z := 3000.
Definition T_max : Z := 12000.
Definition T_init : Z := 5778.

Definition sigma : float := 5.67e-8.
Definition R : float := 6.96e8.

(** [np.pi], the binary64 number nearest to pi. *)
Definition np_pi : float := 3.141592653589793.

(** [R**2].  Python calls the C library's [pow (R, 2.0)]; the square
    of 6.96e8 is itself a binary64 number (see [R_squared_exact]), so
    the library's result is that number, which is also [R * R]. *)
Definition R_squared : float := (R * R)%float.

(** [def luminosity(T): return 4 * np.pi * R**2 * sigma * T**4]
    for a Python int [T], as the script calls it with the slider's
    value and with [T_max]: [T**4] is an exact integer, converted to
    float when it meets the float product on its left. *)
Definition luminosity (T : Z) : option float :=
  match float_of_int (T ^ 4) with
  | Some T4 => Some (4 * np_pi * R_squared * sigma * T4)%float
  | None => None
  end.

(** *** The curve (lines 56-57) *)

(** [L_vals = luminosity(T_vals)] applies the same expression to the
    array [np.linspace(T_min, T_max, 400)] of binary64 numbers, element
    by element.  The product on the left of [T**4] is the same Python
    float; [T_vals**4] is NumPy's [power], which hands each element to
    the C library's [pow].  The script does not fix how that function
    rounds, so it is a parameter here.  NumPy raises nothing on
    overflow. *)
Section Curve.
Variable power4 : float -> float.

Definition luminosity_float (T : float) : float :=
  (4 * np_pi * R_squared * sigma * power4 T)%float.
End Curve.

(** The argument of [luminosity]: a Python int (lines 33 and 47) or a
    float, as the elements of [T_vals] are (line 57). *)
Inductive temperature := Int (n : Z) | Float (x : float).

(** The number a temperature denotes. *)
Definition value (t : temperature) : Q :=
  match t with
  | Int n => inject_Z n
  | Float x => F2Q x
  end.

(** [luminosity(T)] on either kind of argument. *)
Definition luminosity_of (power4 : float -> float) (t : temperature) : option float :=
  match t with
  | Int n => luminosity n
  | Float x => Some (luminosity_float power4 x)
  end.

(** *** Colours (lines 36 and 60) *)

Section ColorMap.
(** [cm.RdYlBu] is Matplotlib's table; the script only calls it on
    floats. *)
Variable RGBA : Type.
Variable RdYlBu : float -> RGBA.

(** [color_current = cm.RdYlBu((T - T_min) / (T_max - T_min))] for the
    Python int [T]: a true division of ints. *)
Definition color_current (T : Z) : option RGBA :=
  match int_truediv (T - T_min) (T_max - T_min) with
  | Some x => Some (RdYlBu x)
  | None => None
  end.

(** [colors = cm.RdYlBu((T_vals - T_min) / (T_max - T_min))] at one
    element [T] of the array: NumPy converts the ints [T_min] and
    [T_max - T_min] to binary64 and subtracts and divides in binary64. *)
Definition colors_at (T : float) : option RGBA :=
  match float_of_int T_min, float_of_int (T_max - T_min) with
  | Some lo, Some span => Some (RdYlBu ((T - lo) / span)%float)
  | _, _ => None
  end.

(** The colour of either kind of temperature. *)
Definition color_of (t : temperature) : option RGBA :=
  match t with
  | Int n => color_current n
  | Float x => colors_at x
  end.
End ColorMap.

(** *** Text details (lines 100-123) *)

(** [formatted_L = '{:.2e}'.format(L_current)] *)
Definition formatted_L (L_current : float) : string := format_2e L_current.

(** The [if 'e+' in ... elif 'e-' in ... else] of lines 103-111,
    giving [(base, exponent)]. *)
Definition base_exponent (formatted_L : string) : option (string * string) :=
  if PyStr.contains "e+" formatted_L then
    PyStr.unpack2 (PyStr.split "e+" formatted_L)
  else if PyStr.contains "e-" formatted_L then
    match PyStr.unpack2 (PyStr.split "e-" formatted_L) with
    | Some (base, exponent) => Some (base, String "-" exponent)
    | None => None
    end
  else Some (formatted_L, "0").

(** Which of the three branches runs. *)
Inductive branch := branch_plus | branch_minus | branch_fallback.

Definition branch_taken (formatted_L : string) : branch :=
  if PyStr.contains "e+" formatted_L then branch_plus
  else if PyStr.contains "e-" formatted_L then branch_minus
  else branch_fallback.

(** [{L_current/3.83e26:1.1f}] *)
Definition ratio_text (L_current : float) : string :=
  format_1f (L_current / 3.83e26)%float.

Record text_block := {
  tb_base : string;
  tb_exponent : string;
  tb_ratio : string
}.

(** [st.slider(..., min_value=T_min, max_value=T_max, key='T_current',
    ...)] (lines 85-92) runs after [L_current] is computed and before
    the text is built.  Streamlit raises [StreamlitAPIException] there
    when the value stored under the key lies outside
    [min_value, max_value]; [false] stands for that exception. *)
Definition slider_accepts (T : Z) : bool :=
  (T_min <=? T)%Z && (T <=? T_max)%Z.

(** The three strings the page shows for the temperature [T]: lines
    33, 85 and 100-123 in the order the script runs them.  [None]
    stands for an exception on the way: from [luminosity], from the
    slider, or from the unpacking of the split. *)
Definition render_text (T : Z) : option text_block :=
  match luminosity T with
  | Some L_current =>
      if slider_accepts T then
        match base_exponent (formatted_L L_current) with
        | Some (base, exponent) =>
            Some {| tb_base := base; tb_exponent := exponent;
                    tb_ratio := ratio_text L_current |}
        | None => None
        end
      else None
  | None => None
  end.

(** *** Session state and slider (lines 18-21, 32, 85-92) *)

(** [if 'T_current' not in st.session_state:
       st.session_state.T_current = T_init] *)
Definition init_session (ss : gmap string Z) : gmap string Z :=
  match ss !! "T_current" with
  | Some _ => ss
  | None => <["T_current" := T_init]> ss
  end.

(** [T = st.session_state.T_current] *)
Definition read_T (ss : gmap string Z) : option Z := ss !! "T_current".

Definition slider_step : Z := 10.

(** Modelled from the spec: the slider widget is Streamlit's, not the
    script's.  Section 4.4 and section 6 of the specification give its
    contract: the values it offers lie in [min_value, max_value] on the
    grid of [step] from [min_value]. *)
Definition slider_offers (v : Z) : bool :=
  (T_min <=? v)%Z && (v <=? T_max)%Z && ((v - T_min) mod slider_step =? 0)%Z.

(** Modelled from the spec: moving the slider stores the chosen value
    under the widget's key and reruns the script from the top. *)
Inductive session_step : gmap string Z -> gmap string Z -> Prop :=
| slider_moved (ss : gmap string Z) (v : Z) :
    slider_offers v = true ->
    session_step ss (init_session (<["T_current" := v]> ss))
| rerun (ss : gmap string Z) :
    session_step ss (init_session ss).

(** The states of a session: the first run starts from an empty
    session state. *)
Inductive reachable : gmap string Z -> Prop :=
| first_run : reachable (init_session ∅)
| next_run (ss ss' : gmap string Z) :
    reachable ss -> session_step ss ss' -> reachable ss'.

(** The states of a session in which the slider has been moved at
    least once. *)
Inductive reachable_after_move : gmap string Z -> Prop :=
| first_move (ss : gmap string Z) (v : Z) :
    reachable ss -> slider_offers v = true ->
    reachable_after_move (init_session (<["T_current" := v]> ss))
| later_run (ss ss' : gmap string Z) :
    reachable_after_move ss -> session_step ss ss' -> reachable_after_move ss'.

End StellarGraph.

Arguments StellarGraph.color_current {RGBA} RdYlBu T.
Arguments StellarGraph.colors_at {RGBA} RdYlBu T.
Arguments StellarGraph.color_of {RGBA} RdYlBu t.

(** ** The formula of the specification, over the real numbers *)

Definition stefan_boltzmann (T : Rdefinitions.R) : Rdefinitions.R :=
  (4 * PI * 6.96e8 ^ 2 * 5.67e-8 * T ^ 4)%R.

(** The integer [4 * R^2 * sigma] of the formula: 4 * 696000000^2 * 567 / 10^10. *)
Definition formula_factor : Z := 109865548800.

(** [x] is within the relative tolerance [tol] of the positive [v]. *)
Definition within (tol v x : Q) : Prop := (Qabs (x - v) <= tol * v)%Q.

(** ** Checking a property on every integer of an interval *)

Fixpoint Z_forall_from (lo : Z) (n : nat) (P : Z -> bool) : bool :=
  match n with
  | O => true
  | S k => P lo && Z_forall_from (lo + 1) k P
  end.

Definition Z_forall_between (lo hi : Z) (P : Z -> bool) : bool :=
  Z_forall_from lo (Z.to_nat (hi - lo + 1)) P.

Import PyFloat PyStr StellarGraph.

(** The luminosity of [T] is a finite float whose value lies between
    3.141592 and 3.141593 times [formula_factor * T^4]. *)
Definition luminosity_near_formula (T : Z) : bool :=
  match luminosity T with
  | Some L =>
      is_finite L
      && Qle_bool (3.141592 * inject_Z (formula_factor * T ^ 4)) (F2Q L)
      && Qle_bool (F2Q L) (3.141593 * inject_Z (formula_factor * T ^ 4))
  | None => false
  end.

(** The luminosities of [T] and [T + 1] are floats, the first smaller. *)
Definition luminosity_increases_at (T : Z) : bool :=
  match luminosity T, luminosity (T + 1) with
  | Some L1, Some L2 => (L1 <? L2)%float
  | _, _ => false
  end.

(** ** The figure and the page *)

Module Page.
Import PyFloat StellarGraph.

(** [ax.set_ylim(0, luminosity(T_max) * 1.1)]: the top of the y axis
    (line 47); the x axis runs from [T_min] to [T_max] (line 46). *)
Definition ylim_top : option float :=
  match luminosity T_max with
  | Some L => Some (L * 1.1)%float
  | None => None
  end.

(** [ax.plot(T, L_current, 'o', ...)]: the highlighted point (lines
    32-33 and 64). *)
Definition highlighted (T : Z) : option (Z * float) :=
  match luminosity T with
  | Some L_current => Some (T, L_current)
  | None => None
  end.

(** The first [st.markdown] text (lines 114-117). *)
Definition luminosity_markdown (base exponent : string) : string :=
  "**Calculated Luminosity ($L$):** <span style='color:orange; font-size:1.3em;'>$"
  +:+ base +:+ " \times 10^{" +:+ exponent +:+ "}$ Watts</span>".

(** The second [st.markdown] text (lines 120-123). *)
Definition ratio_markdown (ratio : string) : string :=
  "Relative to the Sun ($3.83 \times 10^{26}$ W), this star is **"
  +:+ ratio +:+ " times** brighter.".

(** The two texts under the slider. *)
Definition page_text (T : Z) : option (string * string) :=
  match render_text T with
  | Some tb =>
      Some (luminosity_markdown (tb_base tb) (tb_exponent tb),
            ratio_markdown (tb_ratio tb))
  | None => None
  end.

End Page.

(** The string that [base] and [exponent] were split from, if the
    split lost nothing: an exponent without sign had a [+]. *)
Definition rejoin (base exponent : string) : string :=
  if String.prefix "-" exponent then base +:+ "e" +:+ exponent
  else base +:+ "e+" +:+ exponent.

Import Page.

(** ** Further checks on intervals *)

(** [luminosity(2 * T) == 16 * luminosity(T)] *)
Definition luminosity_doubles_at (T : Z) : bool :=
  match luminosity T, luminosity (2 * T) with
  | Some L, Some L2 => PrimFloat.Leibniz.eqb L2 (16 * L)%float
  | _, _ => false
  end.

(** The ratio text of [T] is 1.0 exactly when 5699 <= T <= 5842. *)
Definition ratio_reads_one_at (T : Z) : bool :=
  match luminosity T with
  | Some L =>
      Bool.eqb (String.eqb (ratio_text L) "1.0") ((5699 <=? T)%Z && (T <=? 5842)%Z)
  | None => false
  end.

(** The argument of the colormap for [T] lies in [0, 1]. *)
Definition normalized_in_unit_at (T : Z) : bool :=
  match int_truediv (T - T_min) (T_max - T_min) with
  | Some x => ((0 <=? x) && (x <=? 1))%float
  | None => false
  end.

(** ** Notions used in the proofs *)

(** The character [c] does not occur in [s]. *)
Fixpoint free_of (c : ascii) (s : string) : bool :=
  match s with
  | EmptyString => true
  | String c' s' => negb (Ascii.eqb c c') && free_of c s'
  end.

(** A positive normal binary64 number whose exponent lies in [lo, hi]. *)
Definition normal_pos (sf : spec_float) (lo hi : Z) : Prop :=
  exists m e, sf = S754_finite false m e /\
    Zpos (digits2_pos m) = 53%Z /\ (lo <= e <= hi)%Z.

(** ** The power of the C library *)

(** 2^-52, 2^-51 and 2^-50. *)
Definition eps52 : Q := 1 # 4503599627370496.
Definition eps51 : Q := 1 # 2251799813685248.
Definition eps50 : Q := 1 # 1125899906842624.

(** What is assumed of [power4] at [x]: the result is a finite float
    within the relative error 2^-50 of the exact fourth power, that is,
    within four units in the last place. *)
Definition power4_accurate (power4 : float -> float) (x : float) : Prop :=
  is_finite (power4 x) = true /\
  (Qabs (F2Q (power4 x) - F2Q x ^ 4) <= eps50 * F2Q x ^ 4)%Q.

(** An int does not go through [power4]: [T**4] is exact on ints. *)
Definition power4_accurate_at (power4 : float -> float) (t : temperature) : Prop :=
  match t with
  | Int _ => True
  | Float x => power4_accurate power4 x
  end.

(** Repeated squaring, a power function for the examples. *)
Definition power4_by_squaring (x : float) : float := ((x * x) * (x * x))%float.


(** The range on which the luminosity is shown to be finite and
    positive. *)
Definition in_total_range (t : temperature) : Prop :=
  match t with
  | Int n => (1 <= n <= 10 ^ 73)%Z
  | Float x => (1e-75 <= F2Q x)%Q /\ (F2Q x <= 1e73)%Q
  end.

(** The constant factor of the product with the two rounding errors
    taken off and put on. *)
Definition lum_lo : Q :=
  (1 - eps52) * (1 - eps50) * F2Q (4 * np_pi * R_squared * sigma)%float.
Definition lum_hi : Q :=
  (1 + eps52) * (1 + eps50) * F2Q (4 * np_pi * R_squared * sigma)%float.

(** The float passed to the colormap for the int [T] is finite and
    within the relative error 2^-50 of (T - 3000) / 9000. *)
Definition normalized_near_at (T : Z) : bool :=
  match int_truediv (T - T_min) (T_max - T_min) with
  | Some x =>
      is_finite x
      && Qle_bool (Qabs (F2Q x - (inject_Z T - 3000) / 9000))
                  (eps50 * ((inject_Z T - 3000) / 9000))
  | None => false
  end.

(** * Proofs *)

Lemma Z_forall_from_spec (P : Z -> bool) (n : nat) :
  forall lo, Z_forall_from lo n P = true ->
  forall z, (lo <= z < lo + Z.of_nat n)%Z -> P z = true.
Proof.
  induction n as [|k IH]; intros lo H z Hz; [lia|].
  cbn [Z_forall_from] in H. apply andb_prop in H as [H0 Hk].
  destruct (Z.eq_dec z lo) as [->|Hne]; [exact H0|].
  apply (IH (lo + 1)%Z Hk). lia.
Qed.

Lemma Z_forall_between_spec (P : Z -> bool) (lo hi : Z) :
  Z_forall_between lo hi P = true ->
  forall z, (lo <= z <= hi)%Z -> P z = true.
Proof.
  intros H z Hz. apply (Z_forall_from_spec _ _ _ H). lia.
Qed.

(** ** The luminosity against the formula *)

Lemma PI_6_digits : (3141592 / 1000000 < PI < 3141593 / 1000000)%R.
Proof.
  pose proof (PI_2_3_7_ineq 3) as [Hlo Hhi].
  unfold sum_f_R0, tg_alt, PI_2_3_7_tg, Ratan_seq in Hlo, Hhi.
  simpl in Hlo, Hhi.
  split; lra.
Qed.

Lemma stefan_boltzmann_factor (T : Z) :
  stefan_boltzmann (IZR T) = (PI * IZR (formula_factor * T ^ 4))%R.
Proof.
  rewrite mult_IZR. change 4%Z with (Z.of_nat 4). rewrite <- pow_IZR.
  unfold stefan_boltzmann, formula_factor. lra.
Qed.

(** [R**2]: the float product is the exact square of 696000000. *)
Lemma R_squared_exact : (F2Q R_squared == inject_Z (696000000 ^ 2))%Q.
Proof. vm_compute. reflexivity. Qed.

Lemma luminosity_near_formula_domain :
  Z_forall_between 3000 12000 luminosity_near_formula = true.
Proof. vm_compute. reflexivity. Qed.

(** ** Monotonicity *)

(** The order of binary64 is transitive. *)
Lemma SFltb_trans (x y z : spec_float) :
  SFltb x y = true -> SFltb y z = true -> SFltb x z = true.
Proof.
  unfold SFltb, SFcompare.
  destruct x as [[]|[]| |[] mx ex], y as [[]|[]| |[] my ey], z as [[]|[]| |[] mz ez];
    try discriminate; try reflexivity;
    change (Pos.compare_cont Eq) with Pos.compare;
    repeat match goal with
      | |- context [Z.compare ?a ?b] => destruct (Z.compare_spec a b)
      | |- context [Pos.compare ?a ?b] => destruct (Pos.compare_spec a b)
      end; cbn; try discriminate; try reflexivity; intros _ _; exfalso; lia.
Qed.

Lemma ltb_trans (x y z : float) :
  (x <? y)%float = true -> (y <? z)%float = true -> (x <? z)%float = true.
Proof. rewrite !ltb_spec. apply SFltb_trans. Qed.

Lemma luminosity_increases_domain :
  Z_forall_between 3000 11999 luminosity_increases_at = true.
Proof. vm_compute. reflexivity. Qed.

Lemma luminosity_increases_step (T : Z) :
  (3000 <= T <= 11999)%Z ->
  exists L1 L2 : float,
    luminosity T = Some L1 /\ luminosity (T + 1) = Some L2 /\
    (L1 <? L2)%float = true.
Proof.
  intros HT.
  pose proof (Z_forall_between_spec _ _ _ luminosity_increases_domain T HT) as H.
  unfold luminosity_increases_at in H.
  destruct (luminosity T) as [L1|]; [|discriminate].
  destruct (luminosity (T + 1)) as [L2|]; [|discriminate].
  now exists L1, L2.
Qed.

(** ** Values at the ends of the domain *)

Lemma within_dec (tol v x : Q) :
  Qle_bool (Qabs (x - v)) (tol * v) = true <-> within tol v x.
Proof. apply Qle_bool_iff. Qed.

(** The specification's figure for 3000 K is off by a factor near 19:
    luminosity(3000) is not within 0.1% of 1.497e24. *)
Lemma luminosity_3000_not_spec_value :
  ~ (exists L : float, luminosity 3000 = Some L /\ within 0.001 1.497e24 (F2Q L)).
Proof.
  intros (L & E & H). vm_compute in E. injection E as <-.
  apply within_dec in H. vm_compute in H. discriminate.
Qed.

(** C3 (amended): luminosity(3000) is within 0.1% of 2.796e25 W and
    luminosity(12000) is within 0.1% of 7.157e27 W. *)
Theorem luminosity_boundary_values :
  exists L_lo L_hi : float,
    luminosity T_min = Some L_lo /\ luminosity T_max = Some L_hi /\
    within 0.001 2.796e25 (F2Q L_lo) /\ within 0.001 7.157e27 (F2Q L_hi).
Proof.
  eexists; eexists. split; [vm_compute; reflexivity|]. split; [vm_compute; reflexivity|].
  split; apply within_dec; vm_compute; reflexivity.
Qed.

(** ** The text block at the default temperature *)

(** The mantissa shown for 5778 K is not the specification's 3.83. *)
Lemma render_text_5778_not_3_83 :
  ~ (exists tb : text_block,
       render_text 5778 = Some tb /\ tb_base tb = "3.83" /\
       tb_exponent tb = "26" /\ tb_ratio tb = "1.0").
Proof.
  intros (tb & E & Hb & _). vm_compute in E. injection E as <-.
  cbn in Hb. discriminate.
Qed.

(** C4 (amended): for T = 5778 the text block has mantissa 3.85,
    exponent 26, and the ratio to the Sun reads 1.0. *)
Theorem render_text_5778 :
  render_text T_init =
    Some {| tb_base := "3.85"; tb_exponent := "26"; tb_ratio := "1.0" |}.
Proof. vm_compute. reflexivity. Qed.

(** ** Session state *)

Lemma slider_offers_spec (v : Z) :
  slider_offers v = true <->
  exists k : Z, (0 <= k <= 900)%Z /\ v = (T_min + slider_step * k)%Z.
Proof.
  unfold slider_offers, T_min, T_max, slider_step. split.
  - intros H. apply andb_prop in H as [H Hmod]. apply andb_prop in H as [Hlo Hhi].
    exists ((v - 3000) / 10)%Z.
    apply Z.leb_le in Hlo, Hhi. apply Z.eqb_eq in Hmod.
    pose proof (Z.div_mod (v - 3000) 10). lia.
  - intros (k & Hk & ->).
    replace (3000 + 10 * k - 3000)%Z with (k * 10)%Z by lia.
    rewrite Z.mod_mul by lia.
    rewrite !andb_true_iff, !Z.leb_le, Z.eqb_eq. lia.
Qed.

Lemma read_init_session_Some (ss : gmap string Z) (t : Z) :
  read_T ss = Some t -> read_T (init_session ss) = Some t.
Proof. unfold read_T, init_session. intros E. rewrite E. exact E. Qed.

Lemma read_after_move (ss : gmap string Z) (v : Z) :
  read_T (init_session (<["T_current" := v]> ss)) = Some v.
Proof. apply read_init_session_Some. unfold read_T. apply lookup_insert_eq. Qed.

Lemma read_first_run : read_T (init_session ∅) = Some T_init.
Proof.
  unfold read_T, init_session. rewrite lookup_empty. apply lookup_insert_eq.
Qed.

Lemma session_step_bounds (ss ss' : gmap string Z) :
  session_step ss ss' ->
  (exists t, read_T ss = Some t /\ (T_min <= t <= T_max)%Z) ->
  exists t, read_T ss' = Some t /\ (T_min <= t <= T_max)%Z.
Proof.
  intros Hstep (t & Et & Ht). destruct Hstep as [ss v Hv|ss].
  - exists v. split; [apply read_after_move|].
    apply slider_offers_spec in Hv as (k & Hk & ->).
    unfold T_min, T_max, slider_step. lia.
  - exists t. split; [now apply read_init_session_Some|exact Ht].
Qed.

(** C7: the stored temperature is in [3000, 12000] in every state of a
    session; the first run stores 5778, and every slider update keeps
    the value within the declared bounds. *)
Theorem selected_temperature_in_bounds (ss : gmap string Z) :
  reachable ss ->
  read_T (init_session ∅) = Some 5778%Z /\
  exists t : Z, read_T ss = Some t /\ (3000 <= t <= 12000)%Z.
Proof.
  intros Hreach. split; [exact read_first_run|].
  induction Hreach as [|ss ss' _ IH Hstep].
  - exists T_init. split; [exact read_first_run|]. unfold T_init. lia.
  - exact (session_step_bounds ss ss' Hstep IH).
Qed.

Lemma selected_temperature_in_bounds_witness :
  read_T (init_session ∅) = Some 5778%Z /\
  exists t : Z,
    read_T (init_session (<["T_current" := 6000%Z]> (init_session ∅))) = Some t /\
    (3000 <= t <= 12000)%Z.
Proof.
  apply (selected_temperature_in_bounds
           (init_session (<["T_current" := 6000%Z]> (init_session ∅)))).
  apply (next_run (init_session ∅)); [apply first_run|].
  apply slider_moved. reflexivity.
Defined.

Lemma grid_misses_default (k : Z) : (T_min + slider_step * k)%Z <> T_init.
Proof. unfold T_min, slider_step, T_init. lia. Qed.

Lemma session_step_not_default (ss ss' : gmap string Z) :
  session_step ss ss' ->
  (exists t, read_T ss = Some t /\ t <> T_init) ->
  exists t, read_T ss' = Some t /\ t <> T_init.
Proof.
  intros Hstep (t & Et & Ht). destruct Hstep as [ss v Hv|ss].
  - exists v. split; [apply read_after_move|].
    apply slider_offers_spec in Hv as (k & _ & ->). apply grid_misses_default.
  - exists t. split; [now apply read_init_session_Some|exact Ht].
Qed.

(** C10: the slider offers exactly the values 3000 + 10 k (0 <= k <= 900);
    no integer k gives 3000 + 10 k = 5778; so in every state reached
    after the slider was moved the stored temperature is not 5778. *)
Theorem default_not_reselectable (ss : gmap string Z) :
  reachable_after_move ss ->
  (forall v : Z, slider_offers v = true <->
     exists k : Z, (0 <= k <= 900)%Z /\ v = (3000 + 10 * k)%Z) /\
  (forall k : Z, (3000 + 10 * k)%Z <> 5778%Z) /\
  exists t : Z, read_T ss = Some t /\ t <> 5778%Z.
Proof.
  intros Hmoved. split; [exact slider_offers_spec|].
  split; [exact grid_misses_default|].
  induction Hmoved as [ss v _ Hv|ss ss' _ IH Hstep].
  - exists v. split; [apply read_after_move|].
    apply slider_offers_spec in Hv as (k & _ & ->). apply grid_misses_default.
  - exact (session_step_not_default ss ss' Hstep IH).
Qed.

Lemma default_not_reselectable_witness :
  (forall v : Z, slider_offers v = true <->
     exists k : Z, (0 <= k <= 900)%Z /\ v = (3000 + 10 * k)%Z) /\
  (forall k : Z, (3000 + 10 * k)%Z <> 5778%Z) /\
  exists t : Z,
    read_T (init_session (<["T_current" := 5780%Z]> (init_session ∅))) = Some t /\
    t <> 5778%Z.
Proof.
  apply (default_not_reselectable
           (init_session (<["T_current" := 5780%Z]> (init_session ∅)))).
  apply first_move; [apply first_run|reflexivity].
Defined.

(** ** Rounding to binary64 *)

Section Binary64Rounding.
Local Open Scope Z_scope.

(** Binary length *)
Lemma digits2_pos_bounds (p : positive) :
  2 ^ (Zpos (digits2_pos p) - 1) <= Zpos p < 2 ^ Zpos (digits2_pos p).
Proof.
  induction p as [p IH|p IH|]; cbn [digits2_pos].
  - rewrite Pos2Z.inj_succ.
    replace (Z.succ (Zpos (digits2_pos p)) - 1) with (Z.succ (Zpos (digits2_pos p) - 1)) by lia.
    rewrite !Z.pow_succ_r by lia. lia.
  - rewrite Pos2Z.inj_succ.
    replace (Z.succ (Zpos (digits2_pos p)) - 1) with (Z.succ (Zpos (digits2_pos p) - 1)) by lia.
    rewrite !Z.pow_succ_r by lia. lia.
  - cbn. lia.
Qed.

Lemma digits2_pos_unique (p : positive) (k : Z) :
  2 ^ (k - 1) <= Zpos p < 2 ^ k -> Zpos (digits2_pos p) = k.
Proof.
  intros [Hlo Hhi]. pose proof (digits2_pos_bounds p) as [Blo Bhi].
  assert (Hk : 0 < k).
  { destruct (Z_lt_le_dec 0 k) as [|Hle]; [lia|]. exfalso.
    destruct (Z.eq_dec k 0) as [->|]; [cbn in Hhi; lia|].
    rewrite Z.pow_neg_r in Hhi by lia. lia. }
  destruct (Z.lt_trichotomy (Zpos (digits2_pos p)) k) as [H|[H|H]]; [|exact H|]; exfalso.
  - assert (2 ^ Zpos (digits2_pos p) <= 2 ^ (k - 1)) by (apply Z.pow_le_mono_r; lia). lia.
  - assert (2 ^ k <= 2 ^ (Zpos (digits2_pos p) - 1)) by (apply Z.pow_le_mono_r; lia). lia.
Qed.

(** Shifting right *)
Lemma shr_1_m (r : shr_record) :
  0 <= shr_m r -> shr_m (shr_1 r) = shr_m r / 2.
Proof.
  destruct r as [m rb sb]. cbn [shr_m]. intros Hm.
  destruct m as [|[p|p|]|p]; cbn [shr_1 shr_m]; try reflexivity; try lia.
  - rewrite Pos2Z.inj_xI. apply Z.div_unique with 1; lia.
  - rewrite Pos2Z.inj_xO. apply Z.div_unique with 0; lia.
Qed.

Lemma iter_shr_1_m (n : positive) :
  forall r, 0 <= shr_m r -> shr_m (SpecFloat.iter_pos shr_1 n r) = shr_m r / 2 ^ Zpos n.
Proof.
  assert (Hnn : forall r, 0 <= shr_m r -> 0 <= shr_m (shr_1 r)).
  { intros r Hr. rewrite shr_1_m by exact Hr. apply Z.div_pos; lia. }
  induction n as [n IH|n IH|]; intros r Hr; cbn [SpecFloat.iter_pos].
  - assert (H1 := Hnn r Hr).
    assert (H2 : 0 <= shr_m (SpecFloat.iter_pos shr_1 n (shr_1 r))).
    { rewrite IH by exact H1. apply Z.div_pos; [exact H1|]. apply Z.pow_pos_nonneg; lia. }
    rewrite IH by exact H2. rewrite IH by exact H1. rewrite shr_1_m by exact Hr.
    rewrite !Z.div_div by (try apply Z.pow_pos_nonneg; lia).
    f_equal. rewrite Pos2Z.inj_xI, <- Z.pow_add_r, <- Z.pow_succ_r by lia. f_equal. lia.
  - assert (H2 : 0 <= shr_m (SpecFloat.iter_pos shr_1 n r)).
    { rewrite IH by exact Hr. apply Z.div_pos; [exact Hr|]. apply Z.pow_pos_nonneg; lia. }
    rewrite IH by exact H2. rewrite IH by exact Hr.
    rewrite !Z.div_div by (try apply Z.pow_pos_nonneg; lia).
    f_equal. rewrite Pos2Z.inj_xO, <- Z.pow_add_r by lia. f_equal. lia.
  - rewrite shr_1_m by exact Hr. reflexivity.
Qed.

Lemma round_nearest_even_bounds (m : Z) (l : location) :
  m <= round_nearest_even m l <= m + 1.
Proof.
  unfold round_nearest_even. destruct l as [|[]]; try lia. destruct (Z.even m); lia.
Qed.

Lemma fexp_eq (z : Z) : fexp prec emax z = Z.max (z - 53) (-1074).
Proof. reflexivity. Qed.

Lemma shr_spec (r : shr_record) (e n : Z) :
  0 <= shr_m r -> 0 <= n ->
  shr_m (fst (shr r e n)) = shr_m r / 2 ^ n /\ snd (shr r e n) = e + n.
Proof.
  intros Hr Hn. unfold shr. destruct n as [|p|p]; cbn [fst snd]; try lia.
  - rewrite Z.div_1_r. lia.
  - split; [now apply iter_shr_1_m|reflexivity].
Qed.

(** Rounding a mantissa of at least 53 bits, in the normal range, gives
    a normal number. *)
Lemma binary_round_aux_normal (s : bool) (mx : positive) (ex : Z) (l : location) :
  53 <= Zpos (digits2_pos mx) -> -1074 <= ex ->
  Zpos (digits2_pos mx) + ex <= 1023 ->
  exists m' e',
    binary_round_aux prec emax s (Zpos mx) ex l = S754_finite s m' e' /\
    Zpos (digits2_pos m') = 53 /\
    ex + Zpos (digits2_pos mx) - 53 <= e' <= ex + Zpos (digits2_pos mx) - 52.
Proof.
  pose proof (digits2_pos_bounds mx) as [Blo Bhi].
  unfold binary_round_aux, shr_fexp. cbn [Zdigits2].
  generalize dependent (Zpos (digits2_pos mx)). intros d Blo Bhi Hd Hex Hsum.
  rewrite fexp_eq. replace (Z.max (d + ex - 53) (-1074) - ex) with (d - 53) by lia.
  destruct (shr_spec (shr_record_of_loc (Zpos mx) l) ex (d - 53)) as [Em1 Ee1];
    [destruct l as [|[]]; cbn; lia|lia|].
  destruct (shr _ ex (d - 53)) as [mrs1 e1]. cbn [fst snd] in Em1, Ee1. subst e1.
  replace (shr_m (shr_record_of_loc (Zpos mx) l)) with (Zpos mx) in Em1
    by (destruct l as [|[]]; reflexivity).
  assert (Hp : 0 < 2 ^ (d - 53)) by (apply Z.pow_pos_nonneg; lia).
  assert (Hm1 : 2 ^ 52 <= shr_m mrs1 < 2 ^ 53).
  { rewrite Em1. split.
    - apply Z.div_le_lower_bound; [exact Hp|].
      rewrite Z.mul_comm, <- Z.pow_add_r by lia.
      replace (52 + (d - 53)) with (d - 1) by lia. exact Blo.
    - apply Z.div_lt_upper_bound; [exact Hp|].
      rewrite Z.mul_comm, <- Z.pow_add_r by lia.
      replace (53 + (d - 53)) with d by lia. exact Bhi. }
  pose proof (round_nearest_even_bounds (shr_m mrs1) (loc_of_shr_record mrs1)) as Hr.
  set (m2 := round_nearest_even (shr_m mrs1) (loc_of_shr_record mrs1)) in *.
  destruct m2 as [|q|q] eqn:Eq2; [cbn in *; lia| |cbn in *; lia].
  cbn [Zdigits2]. rewrite fexp_eq.
  destruct (Z_lt_le_dec (Zpos q) (2 ^ 53)) as [Hlt|Hge].
  - rewrite (digits2_pos_unique q 53) by (cbn in *; lia).
    replace (Z.max (53 + (ex + (d - 53)) - 53) (-1074) - (ex + (d - 53))) with 0 by lia.
    cbn [shr shr_record_of_loc shr_m].
    replace (ex + (d - 53) <=? emax - prec) with true
      by (symmetry; apply Z.leb_le; change (emax - prec) with 971; lia).
    exists q, (ex + (d - 53)). split; [reflexivity|]. split; [|lia].
    apply digits2_pos_unique. cbn in *; lia.
  - assert (Eq : Zpos q = 2 ^ 53) by lia.
    rewrite (digits2_pos_unique q 54) by (rewrite Eq; cbn; lia).
    replace (Z.max (54 + (ex + (d - 53)) - 53) (-1074) - (ex + (d - 53))) with 1 by lia.
    cbn [shr SpecFloat.iter_pos shr_record_of_loc].
    assert (Hq : shr_m (shr_1 {| shr_m := Zpos q; shr_r := false; shr_s := false |}) = 2 ^ 52).
    { rewrite shr_1_m by (cbn; lia). cbn [shr_m]. rewrite Eq. reflexivity. }
    destruct (shr_m (shr_1 _)) as [|q'|q'] eqn:Eq'; try (cbn in Hq; lia).
    replace (ex + (d - 53) + 1 <=? emax - prec) with true
      by (symmetry; apply Z.leb_le; change (emax - prec) with 971; lia).
    exists q', (ex + (d - 53) + 1). split; [reflexivity|]. split; [|lia].
    apply digits2_pos_unique. rewrite Hq. cbn. lia.
Qed.

Lemma iter_xO_shift (p k : positive) :
  Zpos (Pos.iter xO p k) = Zpos p * 2 ^ Zpos k.
Proof.
  induction k as [|k IH] using Pos.peano_ind.
  - cbn [Pos.iter]. rewrite Pos2Z.inj_xO. lia.
  - rewrite Pos.iter_succ, Pos2Z.inj_xO, IH, Pos2Z.inj_succ, Z.pow_succ_r by lia. ring.
Qed.

Lemma normal_pos_valid (sf : spec_float) (lo hi : Z) :
  -1074 <= lo -> hi <= 971 -> normal_pos sf lo hi -> valid_binary sf = true.
Proof.
  intros Hlo Hhi (m & e & -> & Hd & He).
  unfold SpecFloat.valid_binary, SpecFloat.bounded, SpecFloat.canonical_mantissa.
  rewrite Hd, fexp_eq. apply andb_true_intro. split.
  - apply Z.eqb_eq. lia.
  - apply Z.leb_le. change (emax - prec) with 971. lia.
Qed.

(** [float(n)] of a positive int below [2^k], [k <= 1023], is a normal
    number. *)
Lemma binary_normalize_normal (n k : Z) :
  0 < n < 2 ^ k -> k <= 1023 ->
  normal_pos (binary_normalize prec emax n 0 false) (-52) (k - 52).
Proof.
  intros [Hn Hk] Hk'. destruct n as [|p|p]; try lia.
  pose proof (digits2_pos_bounds p) as [Blo Bhi].
  assert (Hdk : Zpos (digits2_pos p) <= k).
  { destruct (Z_lt_le_dec k (Zpos (digits2_pos p))) as [H|H]; [|exact H].
    assert (2 ^ k <= 2 ^ (Zpos (digits2_pos p) - 1)) by (apply Z.pow_le_mono_r; lia). lia. }
  cbn [binary_normalize]. unfold binary_round, shl_align.
  rewrite fexp_eq, Z.add_0_r, Z.max_l, Z.sub_0_r by lia.
  destruct (Zpos (digits2_pos p) - 53) as [|j|j] eqn:Ej.
  - destruct (binary_round_aux_normal false p 0 loc_Exact) as (m' & e' & E & Hd & He);
      [lia..|].
    exists m', e'. split; [exact E|]. split; [exact Hd|]. lia.
  - destruct (binary_round_aux_normal false p 0 loc_Exact) as (m' & e' & E & Hd & He);
      [lia..|].
    exists m', e'. split; [exact E|]. split; [exact Hd|]. lia.
  - rewrite <- Ej.
    assert (Hj : Zpos (digits2_pos (Pos.iter xO p j)) = 53).
    { apply digits2_pos_unique. rewrite iter_xO_shift.
      replace 53 with (Zpos (digits2_pos p) + Zpos j) at 2 by lia.
      replace (53 - 1) with (Zpos (digits2_pos p) - 1 + Zpos j) by lia.
      rewrite !Z.pow_add_r by lia.
      assert (0 < 2 ^ Zpos j) by (apply Z.pow_pos_nonneg; lia). nia. }
    destruct (binary_round_aux_normal false (Pos.iter xO p j)
                (Zpos (digits2_pos p) - 53) loc_Exact) as (m' & e' & E & Hd & He);
      [lia..|].
    exists m', e'. split; [exact E|]. split; [exact Hd|]. lia.
Qed.

Lemma SFmul_normal (x y : spec_float) (lx hx ly hy : Z) :
  normal_pos x lx hx -> normal_pos y ly hy ->
  -1074 <= lx + ly -> hx + hy <= 917 ->
  normal_pos (SFmul prec emax x y) (lx + ly + 52) (hx + hy + 54).
Proof.
  intros (mx & ex & -> & Hdx & Hex) (my & ey & -> & Hdy & Hey) Hlo Hhi.
  cbn [SFmul xorb].
  pose proof (digits2_pos_bounds mx) as Bx. pose proof (digits2_pos_bounds my) as By.
  rewrite Hdx in Bx. rewrite Hdy in By.
  assert (Hd : 105 <= Zpos (digits2_pos (mx * my)) <= 106).
  { pose proof (digits2_pos_bounds (mx * my)) as [Blo Bhi].
    rewrite Pos2Z.inj_mul in Blo, Bhi.
    change (53 - 1) with 52 in *.
    assert (H1 : 2 ^ 104 <= Zpos mx * Zpos my) by (change (2 ^ 104) with (2 ^ 52 * 2 ^ 52); nia).
    assert (H2 : Zpos mx * Zpos my < 2 ^ 106) by (change (2 ^ 106) with (2 ^ 53 * 2 ^ 53); nia).
    split.
    - destruct (Z_lt_le_dec (Zpos (digits2_pos (mx * my))) 105) as [H|H]; [|exact H].
      assert (2 ^ Zpos (digits2_pos (mx * my)) <= 2 ^ 104) by (apply Z.pow_le_mono_r; lia). lia.
    - destruct (Z_lt_le_dec 106 (Zpos (digits2_pos (mx * my)))) as [H|H]; [|exact H].
      assert (2 ^ 106 <= 2 ^ (Zpos (digits2_pos (mx * my)) - 1)) by (apply Z.pow_le_mono_r; lia).
      lia. }
  destruct (binary_round_aux_normal false (mx * my) (ex + ey) loc_Exact)
    as (m' & e' & E & Hd' & He'); [lia..|].
  exists m', e'. split; [exact E|]. split; [exact Hd'|]. lia.
Qed.

End Binary64Rounding.

(** ** Totality of the luminosity *)

Lemma Prim2SF_finite_is_finite (x : float) (s : bool) (m : positive) (e : Z) :
  Prim2SF x = S754_finite s m e -> is_finite x = true.
Proof.
  unfold Prim2SF, is_finite.
  destruct (is_nan x); [discriminate|].
  destruct (is_zero x); [discriminate|].
  destruct (is_infinity x); [discriminate|reflexivity].
Qed.

Lemma Prim2SF_positive (x : float) (m : positive) (e : Z) :
  Prim2SF x = S754_finite false m e -> (0 <? x)%float = true.
Proof. intros E. rewrite ltb_spec, E. reflexivity. Qed.

(** The constant factor [4 * np.pi * R**2 * sigma] of the product. *)
Lemma luminosity_factor_normal :
  normal_pos (Prim2SF (4 * np_pi * R_squared * sigma)%float) (-14) (-14).
Proof.
  exists 5654983491464248%positive, (-14)%Z.
  split; [vm_compute; reflexivity|]. split; [reflexivity|lia].
Qed.

(** For 1 <= T <= 10^73 the luminosity is a positive normal float. *)
Lemma luminosity_normal (T : Z) :
  (1 <= T <= 10 ^ 73)%Z ->
  exists L : float,
    luminosity T = Some L /\ normal_pos (Prim2SF L) (-14) 959.
Proof.
  intros HT.
  assert (HT4 : (0 < T ^ 4 < 2 ^ 971)%Z).
  { split; [apply Z.pow_pos_nonneg; lia|].
    apply Z.le_lt_trans with ((10 ^ 73) ^ 4)%Z.
    - apply Z.pow_le_mono_l. lia.
    - apply Z.ltb_lt. vm_compute. reflexivity. }
  pose proof (binary_normalize_normal (T ^ 4) 971 HT4 ltac:(lia)) as Hn.
  pose proof (normal_pos_valid _ (-52) (971 - 52) ltac:(lia) ltac:(lia) Hn) as Hvalid.
  pose proof (SFmul_normal _ _ (-14) (-14) (-52) (971 - 52)
                luminosity_factor_normal Hn ltac:(lia) ltac:(lia)) as Hmul.
  unfold luminosity, float_of_int.
  destruct (binary_normalize prec emax (T ^ 4) 0 false) as [s|s| |s m e] eqn:E;
    try (destruct Hn as (m' & e' & Hn & _); discriminate Hn).
  eexists. split; [reflexivity|].
  rewrite mul_spec, Prim2SF_SF2Prim by exact Hvalid.
  destruct Hmul as (m' & e' & E' & Hd & He).
  exists m', e'. split; [exact E'|]. split; [exact Hd|lia].
Qed.

(** ** Strings in scientific notation *)

Lemma str_app_cons (x : ascii) (a b : string) :
  String x a +:+ b = String x (a +:+ b).
Proof. reflexivity. Qed.

Lemma str_app_assoc (a b c : string) : (a +:+ b) +:+ c = a +:+ (b +:+ c).
Proof.
  induction a as [|x a IH]; [reflexivity|]. rewrite !str_app_cons. now f_equal.
Qed.

Lemma str_app_nil_r (a : string) : a +:+ "" = a.
Proof.
  induction a as [|x a IH]; [reflexivity|]. rewrite str_app_cons. now f_equal.
Qed.

Lemma free_of_app (c : ascii) (a b : string) :
  free_of c (a +:+ b) = free_of c a && free_of c b.
Proof.
  induction a as [|x a IH]; [reflexivity|]. rewrite str_app_cons. cbn [free_of].
  rewrite IH. apply andb_assoc.
Qed.

Lemma prefix_head_ne (c x : ascii) (p s : string) :
  Ascii.eqb c x = false -> String.prefix (String c p) (String x s) = false.
Proof.
  intros H. cbn. destruct (ascii_dec c x) as [->|]; [|reflexivity].
  rewrite Ascii.eqb_refl in H. discriminate.
Qed.

Lemma prefix_head_eq (c : ascii) (p s : string) :
  String.prefix (String c p) (String c s) = String.prefix p s.
Proof. cbn. destruct (ascii_dec c c); [reflexivity|contradiction]. Qed.

Lemma contains_free (c : ascii) (p s : string) :
  free_of c s = true -> contains (String c p) s = false.
Proof.
  induction s as [|x s IH]; intros H; [reflexivity|].
  cbn [free_of] in H. apply andb_prop in H as [Hx Hs].
  apply negb_true_iff in Hx.
  cbn [contains]. rewrite (prefix_head_ne _ _ _ _ Hx), (IH Hs). reflexivity.
Qed.

Lemma split_go_free (c : ascii) (p cur s : string) :
  free_of c s = true -> split_go (String c p) 0 cur s = [cur +:+ s].
Proof.
  revert cur. induction s as [|x s IH]; intros cur H.
  - cbn [split_go]. now rewrite str_app_nil_r.
  - cbn [free_of] in H. apply andb_prop in H as [Hx Hs].
    apply negb_true_iff in Hx.
    cbn [split_go]. rewrite (prefix_head_ne _ _ _ _ Hx), (IH _ Hs), str_app_assoc.
    reflexivity.
Qed.

Lemma contains_here (p s : string) : String.prefix p s = true -> contains p s = true.
Proof. intros H. destruct s; cbn [contains]; rewrite H; reflexivity. Qed.

Lemma contains_app_r (p a s : string) :
  contains p s = true -> contains p (a +:+ s) = true.
Proof.
  intros H. induction a as [|x a IH]; [exact H|].
  rewrite str_app_cons. cbn [contains]. rewrite IH. apply orb_true_r.
Qed.

(** A string [a e c ds] with no other [e] in it splits at [e c] into
    [a] and [ds], and holds no [e c'] for another character [c']. *)
Lemma split_at_marker (e c : ascii) (a ds cur : string) :
  free_of e a = true -> free_of e ds = true ->
  split_go (String e (String c "")) 0 cur (a +:+ String e (String c ds))
  = [cur +:+ a; ds].
Proof.
  intros Ha Hds. revert cur. induction a as [|x a IH]; intros cur.
  - change ("" +:+ String e (String c ds)) with (String e (String c ds)).
    cbn [split_go]. rewrite !prefix_head_eq.
    replace (String.prefix "" ds) with true by (destruct ds; reflexivity).
    cbn [String.length Nat.sub]. rewrite (split_go_free e _ "" ds Hds).
    now rewrite str_app_nil_r.
  - cbn [free_of] in Ha. apply andb_prop in Ha as [Hx Ha].
    apply negb_true_iff in Hx.
    rewrite str_app_cons. cbn [split_go].
    rewrite (prefix_head_ne _ _ _ _ Hx), (IH Ha), str_app_assoc. reflexivity.
Qed.

Lemma contains_other_marker (e c c' : ascii) (a ds : string) :
  free_of e a = true -> free_of e ds = true ->
  Ascii.eqb c' c = false -> Ascii.eqb e c = false ->
  contains (String e (String c' "")) (a +:+ String e (String c ds)) = false.
Proof.
  intros Ha Hds Hc Hec. induction a as [|x a IH].
  - change ("" +:+ String e (String c ds)) with (String e (String c ds)).
    cbn [contains]. rewrite prefix_head_eq, (prefix_head_ne _ _ _ _ Hc).
    rewrite (prefix_head_ne _ _ _ _ Hec). cbn [orb]. now apply contains_free.
  - cbn [free_of] in Ha. apply andb_prop in Ha as [Hx Ha].
    apply negb_true_iff in Hx.
    rewrite str_app_cons. cbn [contains].
    rewrite (prefix_head_ne _ _ _ _ Hx), (IH Ha). reflexivity.
Qed.

Lemma contains_marker (e c : ascii) (a ds : string) :
  contains (String e (String c "")) (a +:+ String e (String c ds)) = true.
Proof.
  apply contains_app_r, contains_here. rewrite !prefix_head_eq.
  destruct ds; reflexivity.
Qed.

(** The split of lines 103-111 on a string in scientific notation. *)
Lemma base_exponent_sci (a ds : string) (neg : bool) :
  free_of "e" a = true -> free_of "e" ds = true ->
  base_exponent (a +:+ String "e" (String (if neg then "-" else "+")%char ds))
  = Some (a, if neg then String "-" ds else ds)
  /\ branch_taken (a +:+ String "e" (String (if neg then "-" else "+")%char ds))
    = if neg then branch_minus else branch_plus.
Proof.
  intros Ha Hds. unfold base_exponent, branch_taken, split.
  destruct neg.
  - rewrite (contains_other_marker "e" "-" "+" a ds Ha Hds eq_refl eq_refl).
    rewrite contains_marker, (split_at_marker "e" "-" a ds "" Ha Hds).
    split; reflexivity.
  - rewrite contains_marker, (split_at_marker "e" "+" a ds "" Ha Hds).
    split; reflexivity.
Qed.

Lemma digit_not_e (k : Z) : Ascii.eqb "e" (digit k) = false.
Proof.
  unfold digit. generalize (Z.to_nat k) as n. intros n.
  do 9 (destruct n as [|n]; [reflexivity|]). reflexivity.
Qed.

Lemma mantissa_free_of_e (m : Z) : free_of "e" (mantissa_str m) = true.
Proof.
  unfold mantissa_str. cbn [free_of]. rewrite !digit_not_e. reflexivity.
Qed.

Lemma uint_free_of_e (u : Decimal.uint) :
  free_of "e" (NilEmpty.string_of_uint u) = true.
Proof. induction u; cbn [NilEmpty.string_of_uint free_of]; auto. Qed.

Lemma decimal_free_of_e (k : Z) : free_of "e" (decimal k) = true.
Proof.
  unfold decimal, NilZero.string_of_uint.
  destruct (N.to_uint (Z.to_N k)) eqn:E; try reflexivity; rewrite <- E at 1;
    apply uint_free_of_e.
Qed.

Lemma exponent_digits_free_of_e (e : Z) : free_of "e" (exponent_digits e) = true.
Proof.
  unfold exponent_digits. destruct (Z.abs e <? 10)%Z; [cbn [free_of]|];
    rewrite decimal_free_of_e; reflexivity.
Qed.

Lemma sign_free_of_e (s : bool) : free_of "e" (sign_str s) = true.
Proof. destruct s; reflexivity. Qed.

(** A finite float is a zero or has a mantissa and an exponent. *)
Lemma is_finite_cases (x : float) :
  is_finite x = true ->
  (exists s, Prim2SF x = S754_zero s) \/
  (exists s m e, Prim2SF x = S754_finite s m e).
Proof.
  unfold is_finite, Prim2SF. intros H.
  destruct (is_nan x); [discriminate|].
  destruct (is_infinity x); [discriminate|].
  destruct (is_zero x); [left; eauto|].
  destruct (Z.frexp x) as [r ex].
  destruct (shr_fexp _ _ _ _ _) as [sh e'].
  destruct (shr_m sh); [left|right|left]; eauto.
Qed.

(** The scientific notation of a finite float, cut before the [e]. *)
Lemma format_2e_finite (x : float) :
  is_finite x = true ->
  exists (a ds : string) (neg : bool),
    free_of "e" a = true /\ free_of "e" ds = true /\
    format_2e x = a +:+ String "e" (String (if neg then "-" else "+")%char ds).
Proof.
  intros H. unfold format_2e.
  destruct (is_finite_cases x H) as [(s & ->)|(s & m & e & ->)].
  - exists (sign_str s +:+ "0.00"), "00", false.
    split; [destruct s; reflexivity|]. split; [reflexivity|]. destruct s; reflexivity.
  - destruct (sci_digits (num m e) (den e)) as [m3 e10].
    exists (sign_str s +:+ mantissa_str m3), (exponent_digits e10), (e10 <? 0)%Z.
    split; [|split].
    + now rewrite free_of_app, sign_free_of_e, mantissa_free_of_e.
    + apply exponent_digits_free_of_e.
    + rewrite str_app_assoc. unfold exponent_str. now destruct (e10 <? 0)%Z.
Qed.

(** ** The fallback branch of the split *)

Lemma luminosity_finite_domain (T : Z) :
  (3000 <= T <= 12000)%Z ->
  exists L : float, luminosity T = Some L /\ is_finite L = true.
Proof.
  intros HT.
  assert (HT' : (1 <= T <= 10 ^ 73)%Z).
  { split; [lia|]. apply Z.le_trans with 12000%Z; [lia|].
    apply Z.leb_le. vm_compute. reflexivity. }
  destruct (luminosity_normal T HT') as (L & EL & m & e & E & _).
  exists L. split; [exact EL|]. exact (Prim2SF_finite_is_finite L false m e E).
Qed.

(** C9: for every integer temperature T in [3000, 12000] the string
    '{:.2e}'.format(luminosity(T)) contains 'e+' or 'e-', so the
    fallback branch that sets the exponent to '0' does not run. *)
Theorem exponent_fallback_unreachable (T : Z) :
  (3000 <= T <= 12000)%Z ->
  exists L : float,
    luminosity T = Some L /\
    (contains "e+" (formatted_L L) = true \/ contains "e-" (formatted_L L) = true) /\
    branch_taken (formatted_L L) <> branch_fallback.
Proof.
  intros HT. destruct (luminosity_finite_domain T HT) as (L & EL & Hfin).
  exists L. split; [exact EL|].
  destruct (format_2e_finite L Hfin) as (a & ds & neg & Ha & Hds & E).
  unfold formatted_L. rewrite E.
  destruct (base_exponent_sci a ds neg Ha Hds) as [_ Hb].
  split.
  - destruct neg; [right|left]; apply contains_marker.
  - rewrite Hb. destruct neg; discriminate.
Qed.

Lemma exponent_fallback_unreachable_witness :
  exists L : float,
    luminosity 5778 = Some L /\
    (contains "e+" (formatted_L L) = true \/ contains "e-" (formatted_L L) = true) /\
    branch_taken (formatted_L L) <> branch_fallback.
Proof. apply (exponent_fallback_unreachable 5778). lia. Defined.

(** ** Decimal exponent of a value below one *)

Lemma round_half_even_bounds (n d : Z) :
  (0 < d)%Z ->
  ((2 * round_half_even n d - 1) * d <= 2 * n <= (2 * round_half_even n d + 1) * d)%Z.
Proof.
  intros Hd. unfold round_half_even.
  pose proof (Z.div_mod n d ltac:(lia)) as E.
  pose proof (Z.mod_pos_bound n d Hd) as Hr.
  destruct (Z.compare_spec (2 * (n mod d)) d) as [H|H|H];
    [destruct (Z.even (n / d))|..]; nia.
Qed.

Lemma scale_down_small (fuel : nat) (n d e : Z) :
  (n < 10 * d)%Z -> scale_down fuel n d e = (n, d, e).
Proof.
  intros H. destruct fuel; [reflexivity|]. cbn [scale_down].
  now apply Z.leb_gt in H as ->.
Qed.

Lemma scale_up_spec (fuel : nat) :
  forall n d e n' d' e',
    scale_up fuel n d e = (n', d', e') ->
    d' = d /\ (e' <= e)%Z /\ n' = (n * 10 ^ (e - e'))%Z.
Proof.
  induction fuel as [|k IH]; intros n d e n' d' e'; cbn [scale_up].
  - intros [= <- <- <-]. rewrite Z.sub_diag. lia.
  - destruct (n <? d)%Z.
    + intros H. apply IH in H as (-> & He & ->). split; [reflexivity|]. split; [lia|].
      replace (e - e')%Z with (Z.succ (e - 1 - e')) by lia.
      rewrite Z.pow_succ_r by lia. ring.
    + intros [= <- <- <-]. rewrite Z.sub_diag. lia.
Qed.

Lemma scale_down_spec (fuel : nat) :
  forall n d e n' d' e',
    (0 < d)%Z -> (n < 2 ^ Z.of_nat fuel * d)%Z ->
    scale_down fuel n d e = (n', d', e') ->
    n' = n /\ (0 < d')%Z /\ (n < 10 * d')%Z /\ (d <= n -> d' <= n)%Z.
Proof.
  induction fuel as [|k IH]; intros n d e n' d' e' Hd Hn; cbn [scale_down].
  - intros [= <- <- <-]. cbn in Hn. lia.
  - rewrite Nat2Z.inj_succ, Z.pow_succ_r in Hn by lia.
    destruct (Z.leb_spec (10 * d) n) as [H|H].
    + intros E. apply IH in E as (-> & Hd' & Hlt & Hle); [|lia|].
      * repeat split; try assumption. intros _. apply Hle. exact H.
      * assert (0 < 2 ^ Z.of_nat k)%Z by (apply Z.pow_pos_nonneg; lia). nia.
    + intros [= <- <- <-]. lia.
Qed.

Lemma scale_up_reaches (fuel : nat) :
  forall n d e n' d' e',
    (0 < n)%Z -> (d <= 2 ^ Z.of_nat fuel * n)%Z -> (n < 10 * d)%Z ->
    scale_up fuel n d e = (n', d', e') ->
    d' = d /\ (d <= n' < 10 * d)%Z.
Proof.
  induction fuel as [|k IH]; intros n d e n' d' e' Hn Hd Hlt; cbn [scale_up].
  - intros [= <- <- <-]. cbn in Hd. lia.
  - rewrite Nat2Z.inj_succ, Z.pow_succ_r in Hd by lia.
    destruct (Z.ltb_spec n d) as [H|H].
    + intros E. apply IH in E; [exact E|lia| |lia].
      assert (0 < 2 ^ Z.of_nat k)%Z by (apply Z.pow_pos_nonneg; lia). nia.
    + intros [= <- <- <-]. lia.
Qed.

Lemma log2_fuel (n : Z) :
  (0 < n)%Z -> (n < 2 ^ Z.of_nat (S (Z.to_nat (Z.log2 n))))%Z.
Proof.
  intros Hn. rewrite Nat2Z.inj_succ, Z2Nat.id by apply Z.log2_nonneg.
  apply Z.log2_spec. exact Hn.
Qed.

(** The fuel of [normalize10] is enough: the scaled fraction lies in
    [1, 10). *)
Lemma normalize10_range (n d n' d' e : Z) :
  (0 < n)%Z -> (0 < d)%Z ->
  normalize10 n d = (n', d', e) -> (0 < d' <= n')%Z /\ (n' < 10 * d')%Z.
Proof.
  intros Hn Hd. unfold normalize10.
  destruct (scale_down _ n d 0) as [[n1 d1] e1] eqn:E1.
  apply scale_down_spec in E1 as (-> & Hd1 & Hlt & _); [|exact Hd|].
  2:{ pose proof (log2_fuel n Hn). nia. }
  intros E2. apply scale_up_reaches in E2 as (-> & H); [lia|exact Hn| |exact Hlt].
  pose proof (log2_fuel d1 Hd1). nia.
Qed.

(** The three digits of [sci_digits] are a number from 100 to 999. *)
Lemma sci_digits_range (n d m3 e10 : Z) :
  (0 < n)%Z -> (0 < d)%Z -> sci_digits n d = (m3, e10) -> (100 <= m3 <= 999)%Z.
Proof.
  intros Hn Hd. unfold sci_digits.
  destruct (normalize10 n d) as [[n1 d1] e1] eqn:E.
  apply normalize10_range in E as [Hd1 Hlt]; [|exact Hn|exact Hd].
  pose proof (round_half_even_bounds (100 * n1) d1 ltac:(lia)) as B.
  destruct (Z.eqb_spec (round_half_even (100 * n1) d1) 1000) as [Hm|Hm];
    intros [= <- <-]; [lia|nia].
Qed.

Lemma scale_down_value (fuel : nat) :
  forall n d e n' d' e',
    scale_down fuel n d e = (n', d', e') ->
    n' = n /\ (e <= e')%Z /\ d' = (d * 10 ^ (e' - e))%Z.
Proof.
  induction fuel as [|k IH]; intros n d e n' d' e'; cbn [scale_down].
  - intros [= <- <- <-]. rewrite Z.sub_diag. lia.
  - destruct (10 * d <=? n)%Z.
    + intros H. apply IH in H as (-> & He & ->). split; [reflexivity|]. split; [lia|].
      replace (e' - e)%Z with (Z.succ (e' - (e + 1))) by lia.
      rewrite Z.pow_succ_r by lia. ring.
    + intros [= <- <- <-]. rewrite Z.sub_diag. lia.
Qed.

(** [normalize10] keeps the value: [n / d = n' / d' * 10^e]. *)
Lemma normalize10_value (n d n' d' e : Z) :
  normalize10 n d = (n', d', e) ->
  exists a b : Z, (0 <= a)%Z /\ (0 <= b)%Z /\ e = (a - b)%Z /\
    n' = (n * 10 ^ b)%Z /\ d' = (d * 10 ^ a)%Z.
Proof.
  unfold normalize10.
  destruct (scale_down _ n d 0) as [[n1 d1] e1] eqn:E1.
  apply scale_down_value in E1 as (-> & He1 & ->).
  intros E2. apply scale_up_spec in E2 as (-> & He & ->).
  exists e1, (e1 - e)%Z. rewrite Z.sub_0_r. repeat split; lia.
Qed.


Section Rationals.
Local Open Scope Q_scope.
Lemma Qabs_scaled_le (x p M z : Q) :
  0 < z ->
  ((2 * M - 1) * p) * z <= (2 * x) * z ->
  (2 * x) * z <= ((2 * M + 1) * p) * z ->
  Qabs (x - M * p) <= (1 # 2) * p.
Proof.
  intros Hz H1 H2.
  apply Qmult_le_r in H1; [|exact Hz]. apply Qmult_le_r in H2; [|exact Hz].
  apply Qabs_Qle_condition. split; lra.
Qed.

Lemma Qpower10_split (a b : Z) :
  (0 <= a)%Z -> (0 <= b)%Z ->
  10 ^ (a - b - 2) * (100 * inject_Z (10 ^ b)) == inject_Z (10 ^ a).
Proof.
  intros Ha Hb.
  rewrite !Zpower_Qpower by assumption. change (inject_Z 10) with 10.
  replace (a - b - 2)%Z with (a + (- b) + (- 2))%Z by lia.
  rewrite !Qpower_plus by discriminate. rewrite !Qpower_opp.
  assert (Hv : ~ 10 ^ b == 0) by (apply Qpower_not_0; discriminate).
  change (10 ^ (-2)) with (/ 100).
  generalize dependent (10 ^ b). generalize (10 ^ a). intros u v Hv.
  field. exact Hv.
Qed.

End Rationals.

Lemma half_unit_scaled (n d m a b : Z) :
  (0 < d)%Z -> (0 <= a)%Z -> (0 <= b)%Z ->
  ((2 * m - 1) * (d * 10 ^ a) <= 2 * (100 * (n * 10 ^ b))
   <= (2 * m + 1) * (d * 10 ^ a))%Z ->
  (Qabs (inject_Z n / inject_Z d - inject_Z m * 10 ^ (a - b - 2))
   <= (1 # 2) * 10 ^ (a - b - 2))%Q.
Proof.
  intros Hd Ha Hb [B1 B2].
  assert (Hpb : (0 < 10 ^ b)%Z) by (apply Z.pow_pos_nonneg; lia).
  pose proof (Qpower10_split a b Ha Hb) as Ep.
  assert (HD : ~ (inject_Z d == 0)%Q) by (unfold Qeq; cbn; lia).
  assert (Ex : (inject_Z n / inject_Z d * inject_Z d == inject_Z n)%Q) by (field; exact HD).
  apply (Qabs_scaled_le _ _ _ (inject_Z d * (100 * inject_Z (10 ^ b)))).
  - unfold Qlt. cbn. lia.
  - setoid_replace ((2 * inject_Z m - 1) * 10 ^ (a - b - 2) * (inject_Z d * (100 * inject_Z (10 ^ b))))%Q
      with ((2 * inject_Z m - 1) * inject_Z d * (10 ^ (a - b - 2) * (100 * inject_Z (10 ^ b))))%Q using relation Qeq by ring.
    setoid_replace (2 * (inject_Z n / inject_Z d) * (inject_Z d * (100 * inject_Z (10 ^ b))))%Q
      with (2 * (inject_Z n / inject_Z d * inject_Z d) * (100 * inject_Z (10 ^ b)))%Q using relation Qeq by ring.
    rewrite Ep, Ex. unfold Qle. cbn. lia.
  - setoid_replace ((2 * inject_Z m + 1) * 10 ^ (a - b - 2) * (inject_Z d * (100 * inject_Z (10 ^ b))))%Q
      with ((2 * inject_Z m + 1) * inject_Z d * (10 ^ (a - b - 2) * (100 * inject_Z (10 ^ b))))%Q using relation Qeq by ring.
    setoid_replace (2 * (inject_Z n / inject_Z d) * (inject_Z d * (100 * inject_Z (10 ^ b))))%Q
      with (2 * (inject_Z n / inject_Z d * inject_Z d) * (100 * inject_Z (10 ^ b)))%Q using relation Qeq by ring.
    rewrite Ep, Ex. unfold Qle. cbn. lia.
Qed.

(** [sci_digits] is the nearest decimal of three significant digits:
    the value [n / d] differs from [m3 * 10^(e10 - 2)] by at most half a
    unit of the last digit. *)
Lemma sci_digits_nearest (n d m3 e10 : Z) :
  (0 < n)%Z -> (0 < d)%Z -> sci_digits n d = (m3, e10) ->
  (Qabs (inject_Z n / inject_Z d - inject_Z m3 * 10 ^ (e10 - 2))
   <= (1 # 2) * 10 ^ (e10 - 2))%Q.
Proof.
  intros Hn Hd. unfold sci_digits.
  destruct (normalize10 n d) as [[n1 d1] e1] eqn:E.
  pose proof (normalize10_range _ _ _ _ _ Hn Hd E) as [Hd1 Hlt].
  apply normalize10_value in E as (a & b & Ha & Hb & -> & -> & ->).
  pose proof (round_half_even_bounds (100 * (n * 10 ^ b)) (d * 10 ^ a) ltac:(lia)) as B.
  pose proof (half_unit_scaled n d _ a b Hd Ha Hb B) as H.
  destruct (Z.eqb_spec (round_half_even (100 * (n * 10 ^ b)) (d * 10 ^ a)) 1000) as [Hm|Hm];
    intros [= <- <-].
  - rewrite Hm in H.
    replace (a - b + 1 - 2)%Z with (a - b - 2 + 1)%Z by lia.
    rewrite Qpower_plus by discriminate. change (10 ^ 1)%Q with 10%Q.
    assert (Hp : (0 < 10 ^ (a - b - 2))%Q) by (apply Qpower_0_lt; reflexivity).
    revert H Hp. generalize (10 ^ (a - b - 2))%Q (inject_Z n / inject_Z d)%Q.
    intros p x H Hp.
    apply Qabs_Qle_condition in H as [H1 H2]. apply Qabs_Qle_condition.
    change (inject_Z 1000) with 1000%Q in *. change (inject_Z 100) with 100%Q.
    split; lra.
  - exact H.
Qed.

(** Below 0.9995 the three-digit rounding cannot reach 1.00e+00: the
    decimal exponent is negative. *)
Lemma sci_digits_below_one (n d m3 e10 : Z) :
  (0 < n)%Z -> (2000 * n < 1999 * d)%Z ->
  sci_digits n d = (m3, e10) -> (e10 < 0)%Z.
Proof.
  intros Hn Hlt. unfold sci_digits, normalize10.
  rewrite scale_down_small by lia. cbn [scale_up].
  replace (n <? d)%Z with true by (symmetry; apply Z.ltb_lt; lia).
  destruct (scale_up _ _ _ _) as [[n1 d1] e1] eqn:E.
  apply scale_up_spec in E as (-> & He1 & ->).
  pose proof (round_half_even_bounds (100 * (10 * n * 10 ^ (0 - 1 - e1))) d ltac:(lia)) as B.
  destruct (Z.eqb_spec (round_half_even (100 * (10 * n * 10 ^ (0 - 1 - e1))) d) 1000) as [Hm|Hm];
    intros [= <- <-]; [|lia].
  rewrite Hm in B.
  destruct (Z.eq_dec e1 (-1)) as [->|]; [|lia].
  cbn in B. lia.
Qed.

Lemma num_den_pos (m : positive) (e : Z) : (0 < num m e)%Z /\ (0 < den e)%Z.
Proof.
  unfold num, den. destruct (0 <=? e)%Z eqn:He.
  - apply Z.leb_le in He. split; [|lia].
    apply Z.mul_pos_pos; [lia|]. apply Z.pow_pos_nonneg; lia.
  - apply Z.leb_gt in He. split; [lia|]. apply Z.pow_pos_nonneg; lia.
Qed.

(** The value of a finite float is [num / den]. *)
Lemma SF2Q_num_den (s : bool) (m : positive) (e : Z) :
  (SF2Q (S754_finite s m e) * inject_Z (den e)
   == inject_Z (cond_Zopp s (num m e)))%Q.
Proof.
  unfold SF2Q, num, den. destruct (0 <=? e)%Z eqn:He.
  - apply Z.leb_le in He.
    change (2%Q) with (inject_Z 2). rewrite <- Zpower_Qpower by exact He.
    rewrite <- inject_Z_mult, Qmult_1_r.
    apply inject_Z_injective. destruct s; cbn [cond_Zopp]; ring.
  - apply Z.leb_gt in He.
    replace e with (- - e)%Z at 1 by lia. rewrite Qpower_opp.
    change (2%Q) with (inject_Z 2). rewrite <- Zpower_Qpower by lia.
    rewrite <- Qmult_assoc, (Qmult_comm (/ _)), Qmult_inv_r, Qmult_1_r.
    + reflexivity.
    + intros H. unfold Qeq in H. cbn [Qnum Qden inject_Z] in H.
      pose proof (Z.pow_pos_nonneg 2 (- e)). lia.
Qed.

Lemma positive_value_cases (x : float) :
  is_finite x = true -> (0 < F2Q x)%Q ->
  exists m e, Prim2SF x = S754_finite false m e.
Proof.
  intros Hfin Hpos. unfold F2Q in Hpos.
  destruct (is_finite_cases x Hfin) as [(s & E)|(s & m & e & E)]; rewrite E in Hpos.
  - discriminate Hpos.
  - destruct s; [|eauto]. exfalso.
    pose proof (SF2Q_num_den true m e) as Hv.
    destruct (num_den_pos m e) as [Hn Hd].
    assert (Hd' : (0 < inject_Z (den e))%Q) by (unfold Qlt; cbn; lia).
    pose proof (Qmult_lt_0_compat _ _ Hpos Hd') as H0.
    rewrite Hv in H0. unfold Qlt in H0. cbn in H0. lia.
Qed.

(** C5 (amended): for a finite L with 0 < L < 0.9995 the formatted
    string is a mantissa d.dd, 'e-', and the exponent digits (at least
    two, as the formatter pads them); the split returns the mantissa and
    '-' followed by those same digits. *)
Theorem negative_exponent_preserved (L : float) :
  is_finite L = true -> (0 < F2Q L)%Q -> (F2Q L < 0.9995)%Q ->
  exists m3 e10 : Z,
    (100 <= m3 <= 999)%Z /\ (e10 < 0)%Z /\
    formatted_L L = mantissa_str m3 +:+ "e-" +:+ exponent_digits e10 /\
    base_exponent (formatted_L L)
    = Some (mantissa_str m3, "-" +:+ exponent_digits e10).
Proof.
  intros Hfin Hpos Hlt.
  destruct (positive_value_cases L Hfin Hpos) as (m & e & E).
  unfold F2Q in Hpos, Hlt. rewrite E in Hpos, Hlt.
  pose proof (SF2Q_num_den false m e) as Hv. cbn [cond_Zopp] in Hv.
  destruct (num_den_pos m e) as [Hn Hd].
  assert (Hsmall : (2000 * num m e < 1999 * den e)%Z).
  { assert (Hd' : (0 < inject_Z (den e))%Q) by (unfold Qlt; cbn; lia).
    pose proof (Qmult_lt_compat_r _ _ _ Hd' Hlt) as H. rewrite Hv in H.
    unfold Qlt in H. cbn in H. lia. }
  destruct (sci_digits (num m e) (den e)) as [m3 e10] eqn:Es.
  pose proof (sci_digits_below_one _ _ _ _ Hn Hsmall Es) as He10.
  exists m3, e10.
  split; [exact (sci_digits_range _ _ _ _ Hn Hd Es)|]. split; [exact He10|].
  assert (Ef : formatted_L L = mantissa_str m3 +:+ "e-" +:+ exponent_digits e10).
  { unfold formatted_L, format_2e. rewrite E, Es. unfold exponent_str.
    apply Z.ltb_lt in He10 as ->. reflexivity. }
  split; [exact Ef|]. rewrite Ef.
  apply (base_exponent_sci (mantissa_str m3) (exponent_digits e10) true
           (mantissa_free_of_e m3) (exponent_digits_free_of_e e10)).
Qed.

Lemma negative_exponent_preserved_witness :
  exists m3 e10 : Z,
    (100 <= m3 <= 999)%Z /\ (e10 < 0)%Z /\
    formatted_L 0.05 = mantissa_str m3 +:+ "e-" +:+ exponent_digits e10 /\
    base_exponent (formatted_L 0.05)
    = Some (mantissa_str m3, "-" +:+ exponent_digits e10).
Proof.
  apply (negative_exponent_preserved 0.05); vm_compute; reflexivity.
Defined.

(** For L = 0.05 the exponent string is "-02", not "-2". *)
Lemma exponent_of_0_05_is_padded :
  ~ (base_exponent (formatted_L 0.05) = Some ("5.00", "-2")).
Proof. vm_compute. discriminate. Qed.

(** * Further properties of the script *)

(** ** The three regimes of the luminosity *)

Section Binary64Overflow.
Local Open Scope Z_scope.

(** Rounding a mantissa of at least 53 bits whose exponent is not below
    the subnormal range: the result is normal or, past the largest
    exponent, an infinity. *)
Lemma binary_round_aux_shape (s : bool) (mx : positive) (ex : Z) (l : location) :
  53 <= Zpos (digits2_pos mx) -> -1074 <= ex ->
  exists m' e',
    Zpos (digits2_pos m') = 53 /\
    ex + Zpos (digits2_pos mx) - 53 <= e' <= ex + Zpos (digits2_pos mx) - 52 /\
    binary_round_aux prec emax s (Zpos mx) ex l
    = if e' <=? 971 then S754_finite s m' e' else S754_infinity s.
Proof.
  pose proof (digits2_pos_bounds mx) as [Blo Bhi].
  unfold binary_round_aux, shr_fexp. cbn [Zdigits2].
  generalize dependent (Zpos (digits2_pos mx)). intros d Blo Bhi Hd Hex.
  rewrite fexp_eq. replace (Z.max (d + ex - 53) (-1074) - ex) with (d - 53) by lia.
  destruct (shr_spec (shr_record_of_loc (Zpos mx) l) ex (d - 53)) as [Em1 Ee1];
    [destruct l as [|[]]; cbn; lia|lia|].
  destruct (shr _ ex (d - 53)) as [mrs1 e1]. cbn [fst snd] in Em1, Ee1. subst e1.
  replace (shr_m (shr_record_of_loc (Zpos mx) l)) with (Zpos mx) in Em1
    by (destruct l as [|[]]; reflexivity).
  assert (Hp : 0 < 2 ^ (d - 53)) by (apply Z.pow_pos_nonneg; lia).
  assert (Hm1 : 2 ^ 52 <= shr_m mrs1 < 2 ^ 53).
  { rewrite Em1. split.
    - apply Z.div_le_lower_bound; [exact Hp|].
      rewrite Z.mul_comm, <- Z.pow_add_r by lia.
      replace (52 + (d - 53)) with (d - 1) by lia. exact Blo.
    - apply Z.div_lt_upper_bound; [exact Hp|].
      rewrite Z.mul_comm, <- Z.pow_add_r by lia.
      replace (53 + (d - 53)) with d by lia. exact Bhi. }
  pose proof (round_nearest_even_bounds (shr_m mrs1) (loc_of_shr_record mrs1)) as Hr.
  destruct (round_nearest_even (shr_m mrs1) (loc_of_shr_record mrs1)) as [|q|q] eqn:Eq2;
    [cbn in *; lia| |cbn in *; lia].
  cbn [Zdigits2]. rewrite fexp_eq.
  change (emax - prec) with 971.
  destruct (Z_lt_le_dec (Zpos q) (2 ^ 53)) as [Hlt|Hge].
  - rewrite (digits2_pos_unique q 53) by (cbn in *; lia).
    replace (Z.max (53 + (ex + (d - 53)) - 53) (-1074) - (ex + (d - 53))) with 0 by lia.
    cbn [shr shr_record_of_loc shr_m].
    exists q, (ex + (d - 53)). split; [|split; [lia|reflexivity]].
    apply digits2_pos_unique. cbn in *; lia.
  - assert (Eq : Zpos q = 2 ^ 53) by lia.
    rewrite (digits2_pos_unique q 54) by (rewrite Eq; cbn; lia).
    replace (Z.max (54 + (ex + (d - 53)) - 53) (-1074) - (ex + (d - 53))) with 1 by lia.
    cbn [shr SpecFloat.iter_pos shr_record_of_loc].
    assert (Hq : shr_m (shr_1 {| shr_m := Zpos q; shr_r := false; shr_s := false |}) = 2 ^ 52).
    { rewrite shr_1_m by (cbn; lia). cbn [shr_m]. rewrite Eq. reflexivity. }
    destruct (shr_m (shr_1 _)) as [|q'|q'] eqn:Eq'; try (cbn in Hq; lia).
    exists q', (ex + (d - 53) + 1). split; [|split; [lia|reflexivity]].
    apply digits2_pos_unique. rewrite Hq. cbn. lia.
Qed.

Lemma binary_round_aux_overflow (s : bool) (mx : positive) (ex : Z) (l : location) :
  53 <= Zpos (digits2_pos mx) -> -1074 <= ex ->
  1025 <= Zpos (digits2_pos mx) + ex ->
  binary_round_aux prec emax s (Zpos mx) ex l = S754_infinity s.
Proof.
  intros Hd Hex Hsum.
  destruct (binary_round_aux_shape s mx ex l Hd Hex) as (m' & e' & _ & He & ->).
  destruct (Z.leb_spec e' 971); [lia|reflexivity].
Qed.

Lemma digits2_pos_ge (p : positive) (k : Z) :
  2 ^ k <= Zpos p -> k + 1 <= Zpos (digits2_pos p).
Proof.
  intros H. pose proof (digits2_pos_bounds p) as [_ Bhi].
  destruct (Z_lt_le_dec (Zpos (digits2_pos p)) (k + 1)) as [Hlt|Hle]; [|exact Hle].
  assert (2 ^ Zpos (digits2_pos p) <= 2 ^ k) by (apply Z.pow_le_mono_r; lia). lia.
Qed.

(** [float(n)] raises OverflowError from [2^1024] on. *)
Lemma float_of_int_overflow (n : Z) : 2 ^ 1024 <= n -> float_of_int n = None.
Proof.
  intros Hn. destruct n as [|p|p]; try (cbn in Hn; lia).
  pose proof (digits2_pos_ge p 1024 Hn) as Hd.
  unfold float_of_int. cbn [binary_normalize]. unfold binary_round, shl_align.
  rewrite fexp_eq, Z.add_0_r, Z.max_l, Z.sub_0_r by lia.
  destruct (Zpos (digits2_pos p) - 53) as [|j|j] eqn:Ej; try lia.
  rewrite binary_round_aux_overflow by lia. reflexivity.
Qed.

End Binary64Overflow.

Lemma pow4_abs (T : Z) : (T ^ 4 = Z.abs T ^ 4)%Z.
Proof. destruct (Z.abs_spec T) as [[_ ->]|[_ ->]]; [reflexivity|]. ring. Qed.

(** X1: luminosity has no guard on the sign of its argument: a negative
    temperature gives the luminosity of its absolute value, and 0 gives
    0.0. *)
Theorem luminosity_ignores_sign (T : Z) :
  luminosity (- T) = luminosity T /\ luminosity 0 = Some 0%float.
Proof.
  split; [|vm_compute; reflexivity].
  unfold luminosity. now replace ((- T) ^ 4)%Z with (T ^ 4)%Z by ring.
Qed.

(** X2: from |T| = 2^256 on, luminosity(T) raises OverflowError: T**4
    is an int too large to convert to float. *)
Theorem luminosity_overflow_error (T : Z) :
  (2 ^ 256 <= Z.abs T)%Z -> luminosity T = None.
Proof.
  intros HT. unfold luminosity. rewrite float_of_int_overflow; [reflexivity|].
  rewrite pow4_abs. change (2 ^ 1024)%Z with ((2 ^ 256) ^ 4)%Z.
  apply Z.pow_le_mono_l. split; [|exact HT]. apply Z.pow_nonneg. lia.
Qed.

Lemma luminosity_overflow_error_witness : luminosity (- 2 ^ 256) = None.
Proof. apply (luminosity_overflow_error (- 2 ^ 256)). vm_compute. discriminate. Defined.

Section Binary64Infinite.
Local Open Scope Z_scope.

(** [float(n)] for [2^lo <= n < 2^k] with at least 53 bits. *)
Lemma binary_normalize_large (n lo k : Z) :
  52 <= lo -> 2 ^ lo <= n < 2 ^ k -> k <= 1023 ->
  normal_pos (binary_normalize prec emax n 0 false) (lo - 52) (k - 52).
Proof.
  intros Hlo [Hn Hk] Hk'.
  assert (0 < 2 ^ lo) by (apply Z.pow_pos_nonneg; lia).
  destruct n as [|p|p]; try lia.
  pose proof (digits2_pos_ge p lo Hn) as Hd.
  pose proof (digits2_pos_bounds p) as [Blo Bhi].
  assert (Hdk : Zpos (digits2_pos p) <= k).
  { destruct (Z_lt_le_dec k (Zpos (digits2_pos p))) as [H'|H']; [|exact H'].
    assert (2 ^ k <= 2 ^ (Zpos (digits2_pos p) - 1)) by (apply Z.pow_le_mono_r; lia). lia. }
  cbn [binary_normalize]. unfold binary_round, shl_align.
  rewrite fexp_eq, Z.add_0_r, Z.max_l, Z.sub_0_r by lia.
  destruct (Zpos (digits2_pos p) - 53) as [|j|j] eqn:Ej; try lia;
    destruct (binary_round_aux_normal false p 0 loc_Exact) as (m' & e' & E & Hd' & He);
    try lia; exists m', e'; (split; [exact E|]); (split; [exact Hd'|lia]).
Qed.

Lemma SFmul_overflow (x y : spec_float) (lx hx ly hy : Z) :
  normal_pos x lx hx -> normal_pos y ly hy -> 920 <= lx + ly ->
  SFmul prec emax x y = S754_infinity false.
Proof.
  intros (mx & ex & -> & Hdx & Hex) (my & ey & -> & Hdy & Hey) Hlo.
  cbn [SFmul xorb].
  pose proof (digits2_pos_bounds mx) as Bx. pose proof (digits2_pos_bounds my) as By.
  rewrite Hdx in Bx. rewrite Hdy in By. change (53 - 1) with 52 in *.
  assert (H1 : 2 ^ 104 <= Zpos (mx * my)).
  { rewrite Pos2Z.inj_mul. change (2 ^ 104) with (2 ^ 52 * 2 ^ 52). nia. }
  pose proof (digits2_pos_ge (mx * my) 104 H1) as Hd.
  apply binary_round_aux_overflow; lia.
Qed.

End Binary64Infinite.

(** X3: for 1.6e74 <= |T| <= 2^255 luminosity(T) raises nothing: the
    float product overflows and the result is inf.  No text block is
    shown for such a T: the slider refuses it. *)
Theorem luminosity_infinite (T : Z) :
  (16 * 10 ^ 73 <= Z.abs T <= 2 ^ 255)%Z ->
  luminosity T = Some infinity /\ render_text T = None.
Proof.
  intros [Hlo Hhi].
  assert (EL : luminosity T = Some infinity); [|split; [exact EL|]].
  2:{ unfold render_text. rewrite EL.
      destruct (slider_accepts T) eqn:Hs; [exfalso|reflexivity].
      unfold slider_accepts, T_min, T_max in Hs.
      apply andb_prop in Hs as [H1 H2]. apply Z.leb_le in H1, H2.
      assert (Hbig : (12000 < 16 * 10 ^ 73)%Z) by (vm_compute; reflexivity).
      lia. }
  assert (HT4 : (2 ^ 986 <= T ^ 4 < 2 ^ 1021)%Z).
  { rewrite pow4_abs. split.
    - apply Z.le_trans with ((16 * 10 ^ 73) ^ 4)%Z.
      + apply Z.leb_le. vm_compute. reflexivity.
      + apply Z.pow_le_mono_l. split; [|exact Hlo]. apply Z.leb_le. vm_compute. reflexivity.
    - apply Z.le_lt_trans with ((2 ^ 255) ^ 4)%Z.
      + apply Z.pow_le_mono_l. split; [apply Z.abs_nonneg|exact Hhi].
      + apply Z.ltb_lt. vm_compute. reflexivity. }
  pose proof (binary_normalize_large (T ^ 4) 986 1021 ltac:(lia) HT4 ltac:(lia)) as Hn.
  pose proof (normal_pos_valid _ (986 - 52) (1021 - 52) ltac:(lia) ltac:(lia) Hn) as Hvalid.
  pose proof (SFmul_overflow _ _ (-14) (-14) (986 - 52) (1021 - 52)
                luminosity_factor_normal Hn ltac:(lia)) as Hmul.
  unfold luminosity, float_of_int.
  destruct (binary_normalize prec emax (T ^ 4) 0 false) as [s|s| |s m e] eqn:E;
    try (destruct Hn as (m' & e' & Hn & _); discriminate Hn).
  f_equal. rewrite <- (SF2Prim_Prim2SF (_ * _)%float).
  rewrite mul_spec, Prim2SF_SF2Prim by exact Hvalid.
  unfold SF64mul. rewrite Hmul. reflexivity.
Qed.

Lemma luminosity_infinite_witness :
  luminosity (10 ^ 75) = Some infinity /\ render_text (10 ^ 75) = None.
Proof.
  apply (luminosity_infinite (10 ^ 75)). split; apply Z.leb_le; vm_compute; reflexivity.
Defined.

(** ** The highlighted point and the axes *)

(** Below [T_max] the luminosity is below the luminosity of [T_max]. *)
Lemma luminosity_below_max (T : Z) :
  (3000 <= T < 12000)%Z ->
  exists L Lmax : float,
    luminosity T = Some L /\ luminosity 12000 = Some Lmax /\ (L <? Lmax)%float = true.
Proof.
  intros HT.
  replace 12000%Z with (T + 1 + Z.of_nat (Z.to_nat (12000 - T - 1)))%Z by lia.
  assert (Hk : (T + 1 + Z.of_nat (Z.to_nat (12000 - T - 1)) <= 12000)%Z) by lia.
  revert Hk. induction (Z.to_nat (12000 - T - 1)) as [|k IH]; intros Hk.
  - rewrite Z.add_0_r. apply luminosity_increases_step. lia.
  - destruct IH as (L1 & L2 & E1 & E2 & H12); [lia|].
    destruct (luminosity_increases_step (T + 1 + Z.of_nat k)) as (L2' & L3 & E2' & E3 & H23);
      [lia|].
    rewrite E2 in E2'. injection E2' as <-.
    exists L1, L3. split; [exact E1|]. split.
    + rewrite <- E3. f_equal. lia.
    + exact (ltb_trans _ _ _ H12 H23).
Qed.

(** X4: for every integer T in [T_min, T_max] the highlighted point
    (T, luminosity(T)) lies inside the axes: its ordinate is positive
    and strictly below the top luminosity(T_max) * 1.1 of the y axis. *)
Theorem highlighted_inside_axes (T : Z) :
  (T_min <= T <= T_max)%Z ->
  exists L top : float,
    highlighted T = Some (T, L) /\ ylim_top = Some top /\
    (0 <? L)%float = true /\ (L <? top)%float = true.
Proof.
  unfold T_min, T_max. intros HT.
  assert (Etop : exists Lmax, luminosity 12000 = Some Lmax /\
                   ylim_top = Some (Lmax * 1.1)%float /\ (Lmax <? Lmax * 1.1)%float = true).
  { eexists. split; [vm_compute; reflexivity|]. split; vm_compute; reflexivity. }
  destruct Etop as (Lmax & Emax & Etop & Hmax).
  assert (HT' : (1 <= T <= 10 ^ 73)%Z).
  { split; [lia|]. apply Z.le_trans with 12000%Z; [lia|].
    apply Z.leb_le. vm_compute. reflexivity. }
  destruct (luminosity_normal T HT') as (L & EL & m & e & E & _).
  exists L, (Lmax * 1.1)%float. unfold highlighted. rewrite EL.
  split; [reflexivity|]. split; [exact Etop|]. split; [exact (Prim2SF_positive L m e E)|].
  destruct (Z.eq_dec T 12000) as [->|Hne].
  - rewrite Emax in EL. injection EL as <-. exact Hmax.
  - destruct (luminosity_below_max T ltac:(lia)) as (L' & Lmax' & EL' & Emax' & Hlt).
    rewrite EL in EL'. injection EL' as <-.
    rewrite Emax in Emax'. injection Emax' as <-.
    exact (ltb_trans _ _ _ Hlt Hmax).
Qed.

Lemma highlighted_inside_axes_witness :
  exists L top : float,
    highlighted 5778 = Some (5778%Z, L) /\ ylim_top = Some top /\
    (0 <? L)%float = true /\ (L <? top)%float = true.
Proof. apply (highlighted_inside_axes 5778). unfold T_min, T_max. lia. Defined.

(** ** The split outside the domain *)

(** A float that is not finite is a NaN or an infinity. *)
Lemma not_finite_cases (x : float) :
  is_finite x = false ->
  Prim2SF x = S754_nan \/ exists s, Prim2SF x = S754_infinity s.
Proof.
  unfold is_finite. intros H. apply negb_false_iff in H.
  unfold Prim2SF. destruct (is_nan x) eqn:En; [left; reflexivity|].
  cbn [orb] in H. destruct (is_zero x) eqn:Ez.
  - exfalso. unfold is_infinity in H. rewrite FloatAxioms.eqb_spec, abs_spec in H.
    assert (Ex : exists s, Prim2SF x = S754_zero s).
    { unfold Prim2SF. rewrite En, Ez. eauto. }
    destruct Ex as [s Ex]. rewrite Ex in H. vm_compute in H. discriminate.
  - rewrite H. right. eauto.
Qed.

(** X5: the fallback branch of the split (exponent '0') runs exactly
    when L_current is not finite, that is, an infinity or a NaN. *)
Theorem fallback_iff_not_finite (L : float) :
  branch_taken (formatted_L L) = branch_fallback <-> is_finite L = false.
Proof.
  split.
  - intros Hb. destruct (is_finite L) eqn:Hfin; [exfalso|reflexivity].
    destruct (format_2e_finite L Hfin) as (a & ds & neg & Ha & Hds & E).
    unfold formatted_L in Hb. rewrite E in Hb.
    destruct (base_exponent_sci a ds neg Ha Hds) as [_ Hb'].
    rewrite Hb' in Hb. destruct neg; discriminate.
  - intros Hfin. unfold formatted_L, format_2e.
    destruct (not_finite_cases L Hfin) as [->|[[] ->]]; reflexivity.
Qed.

Lemma digits_free_of (c : ascii) (u : Decimal.uint) :
  free_of c "0123456789" = true ->
  free_of c (NilEmpty.string_of_uint u) = true.
Proof.
  intros H. cbn [free_of] in H.
  repeat (apply andb_prop in H as [? H]).
  induction u; cbn [NilEmpty.string_of_uint free_of]; auto using andb_true_intro.
Qed.

Lemma exponent_digits_unsigned (e : Z) : free_of "-" (exponent_digits e) = true.
Proof.
  unfold exponent_digits, decimal, NilZero.string_of_uint.
  destruct (Z.abs e <? 10)%Z; [cbn [free_of negb Ascii.eqb]|];
    destruct (N.to_uint (Z.to_N (Z.abs e))) eqn:E; try reflexivity;
    rewrite <- E; cbn [free_of]; apply digits_free_of; reflexivity.
Qed.

Lemma prefix_free (c : ascii) (s : string) :
  free_of c s = true -> String.prefix (String c "") s = false.
Proof.
  destruct s as [|x s]; [reflexivity|]. cbn [free_of]. intros H.
  apply andb_prop in H as [Hx _]. apply negb_true_iff in Hx.
  now apply prefix_head_ne.
Qed.

(** X6: for every finite L_current the split succeeds and loses
    nothing: base, 'e' and the exponent (with the '+' that the 'e+'
    branch drops) give back the formatted string. *)
Theorem split_rejoins (L : float) :
  is_finite L = true ->
  exists base exponent : string,
    base_exponent (formatted_L L) = Some (base, exponent) /\
    rejoin base exponent = formatted_L L.
Proof.
  intros Hfin. unfold formatted_L, format_2e.
  destruct (is_finite_cases L Hfin) as [(s & ->)|(s & m & e & ->)].
  - exists (sign_str s +:+ "0.00"), "00". destruct s; split; reflexivity.
  - destruct (sci_digits (num m e) (den e)) as [m3 e10].
    assert (Ha : free_of "e" (sign_str s +:+ mantissa_str m3) = true)
      by now rewrite free_of_app, sign_free_of_e, mantissa_free_of_e.
    pose proof (exponent_digits_free_of_e e10) as Hds.
    destruct (base_exponent_sci _ _ (e10 <? 0)%Z Ha Hds) as [Hbe _].
    rewrite <- str_app_assoc. unfold exponent_str.
    rewrite Hbe. eexists _, _. split; [reflexivity|].
    unfold rejoin. destruct (e10 <? 0)%Z.
    + rewrite prefix_head_eq.
      replace (String.prefix "" (exponent_digits e10)) with true
        by (destruct (exponent_digits e10); reflexivity).
      reflexivity.
    + rewrite (prefix_free "-" _ (exponent_digits_unsigned e10)). reflexivity.
Qed.

Lemma split_rejoins_witness :
  exists base exponent : string,
    base_exponent (formatted_L 0.05) = Some (base, exponent) /\
    rejoin base exponent = formatted_L 0.05.
Proof. apply (split_rejoins 0.05). reflexivity. Defined.

(** ** The text block on the domain *)

(** The decimal exponent of a value in [10^lo, 9.995 * 10^hi). *)
Lemma sci_digits_exponent_bounds (n d lo hi m3 e10 : Z) :
  (0 < n)%Z -> (0 < d)%Z -> (0 <= lo)%Z -> (0 <= hi)%Z ->
  (10 ^ lo * d <= n)%Z -> (200 * n < 1999 * 10 ^ hi * d)%Z ->
  sci_digits n d = (m3, e10) -> (lo <= e10 <= hi)%Z.
Proof.
  intros Hn Hd Hlo Hhi Hge Hlt. unfold sci_digits.
  destruct (normalize10 n d) as [[n1 d1] e1] eqn:E.
  pose proof (normalize10_range _ _ _ _ _ Hn Hd E) as [Hd1 Hn1].
  apply normalize10_value in E as (a & b & Ha & Hb & -> & -> & ->).
  pose proof (round_half_even_bounds (100 * (n * 10 ^ b)) (d * 10 ^ a) ltac:(lia)) as B.
  assert (HA : (0 < 10 ^ a)%Z) by (apply Z.pow_pos_nonneg; lia).
  assert (HB : (0 < 10 ^ b)%Z) by (apply Z.pow_pos_nonneg; lia).
  assert (HL : (0 < 10 ^ lo)%Z) by (apply Z.pow_pos_nonneg; lia).
  assert (HH : (0 < 10 ^ hi)%Z) by (apply Z.pow_pos_nonneg; lia).
  assert (Hlow : (lo <= a - b)%Z).
  { assert (H : (10 ^ (lo + b) < 10 ^ (a + 1))%Z).
    { rewrite !Z.pow_add_r by lia. change (10 ^ 1)%Z with 10%Z. nia. }
    apply Z.pow_lt_mono_r_iff in H; lia. }
  assert (Hup : (a - b <= hi)%Z).
  { assert (H : (10 ^ a < 10 ^ (hi + b + 1))%Z).
    { rewrite !Z.pow_add_r by lia. change (10 ^ 1)%Z with 10%Z. nia. }
    apply Z.pow_lt_mono_r_iff in H; lia. }
  destruct (Z.eqb_spec (round_half_even (100 * (n * 10 ^ b)) (d * 10 ^ a)) 1000) as [Hm|Hm];
    intros [= <- <-]; [|lia].
  rewrite Hm in B. split; [lia|].
  assert (H : (10 ^ a < 10 ^ (hi + b))%Z).
  { rewrite !Z.pow_add_r by lia. nia. }
  apply Z.pow_lt_mono_r_iff in H; lia.
Qed.

(** On the domain the luminosity is a positive float [num / den]
    between 3.141592 and 3.141593 times [formula_factor * T^4]. *)
Lemma luminosity_value_bounds (T : Z) :
  (3000 <= T <= 12000)%Z ->
  exists (L : float) (m : positive) (e : Z),
    luminosity T = Some L /\ Prim2SF L = S754_finite false m e /\
    (3141592 * (formula_factor * T ^ 4) * den e <= 1000000 * num m e
     <= 3141593 * (formula_factor * T ^ 4) * den e)%Z.
Proof.
  intros HT.
  pose proof (Z_forall_between_spec _ _ _ luminosity_near_formula_domain T HT) as H.
  unfold luminosity_near_formula in H.
  destruct (luminosity T) as [L|]; [|discriminate].
  apply andb_prop in H as [H Hhi]. apply andb_prop in H as [Hfin Hlo].
  apply Qle_bool_iff in Hlo, Hhi.
  assert (HX : (0 < formula_factor * T ^ 4)%Z) by (unfold formula_factor; nia).
  assert (Hpos : (0 < F2Q L)%Q).
  { eapply Qlt_le_trans; [|exact Hlo]. unfold Qlt. cbn. lia. }
  destruct (positive_value_cases L Hfin Hpos) as (m & e & E).
  exists L, m, e. split; [reflexivity|]. split; [exact E|].
  unfold F2Q in Hlo, Hhi. rewrite E in Hlo, Hhi.
  pose proof (SF2Q_num_den false m e) as Hv. cbn [cond_Zopp] in Hv.
  destruct (num_den_pos m e) as [Hn Hd].
  assert (Hd' : (0 <= inject_Z (den e))%Q) by (unfold Qle; cbn; lia).
  apply (Qmult_le_compat_r _ _ _) with (1 := Hlo) in Hd' as Hlo'.
  apply (Qmult_le_compat_r _ _ _) with (1 := Hhi) in Hd' as Hhi'.
  rewrite Hv in Hlo', Hhi'. unfold Qle in Hlo', Hhi'. cbn in Hlo', Hhi'. lia.
Qed.

(** On the domain: the digits and the decimal exponent of the
    luminosity, and the text block made of them. *)
Lemma render_text_digits (T : Z) :
  (3000 <= T <= 12000)%Z ->
  exists (L : float) (m : positive) (e m3 e10 : Z),
    luminosity T = Some L /\ Prim2SF L = S754_finite false m e /\
    sci_digits (num m e) (den e) = (m3, e10) /\
    (100 <= m3 <= 999)%Z /\ (25 <= e10 <= 27)%Z /\
    render_text T = Some {| tb_base := mantissa_str m3; tb_exponent := decimal e10;
                            tb_ratio := ratio_text L |}.
Proof.
  intros HT. destruct (luminosity_value_bounds T HT) as (L & m & e & EL & E & Hlo & Hhi).
  destruct (num_den_pos m e) as [Hn Hd].
  destruct (sci_digits (num m e) (den e)) as [m3 e10] eqn:Es.
  pose proof (sci_digits_range _ _ _ _ Hn Hd Es) as Hm3.
  assert (HT4 : (3000 ^ 4 <= T ^ 4 <= 12000 ^ 4)%Z)
    by (split; apply Z.pow_le_mono_l; lia).
  assert (He10 : (25 <= e10 <= 27)%Z).
  { apply (sci_digits_exponent_bounds _ _ 25 27 _ _ Hn Hd ltac:(lia) ltac:(lia)) in Es;
      [exact Es| |]; unfold formula_factor in *; nia. }
  exists L, m, e, m3, e10. repeat (split; [assumption|]).
  assert (Hs : slider_accepts T = true).
  { unfold slider_accepts, T_min, T_max. apply andb_true_intro. split; apply Z.leb_le; lia. }
  unfold render_text, formatted_L, format_2e. rewrite EL, Hs, E, Es.
  change (sign_str false +:+ mantissa_str m3 +:+ exponent_str e10)
    with (mantissa_str m3 +:+ exponent_str e10).
  unfold exponent_str, exponent_digits.
  replace (e10 <? 0)%Z with false by (symmetry; apply Z.ltb_ge; lia).
  replace (Z.abs e10 <? 10)%Z with false by (symmetry; apply Z.ltb_ge; lia).
  replace (Z.abs e10) with e10 by lia.
  destruct (base_exponent_sci (mantissa_str m3) (decimal e10) false
              (mantissa_free_of_e m3) (decimal_free_of_e e10)) as [-> _].
  reflexivity.
Qed.

(** X7: for every integer T in [3000, 12000] the text block is
    produced through the 'e+' branch: the mantissa is d.dd with
    100 <= ddd <= 999, the exponent is 25, 26 or 27 without sign, and
    the two markdown texts are built from them. *)
Theorem text_block_on_domain (T : Z) :
  (3000 <= T <= 12000)%Z ->
  exists (m3 e10 : Z) (ratio : string),
    (100 <= m3 <= 999)%Z /\ (25 <= e10 <= 27)%Z /\
    render_text T = Some {| tb_base := mantissa_str m3; tb_exponent := decimal e10;
                            tb_ratio := ratio |} /\
    page_text T = Some (luminosity_markdown (mantissa_str m3) (decimal e10),
                        ratio_markdown ratio).
Proof.
  intros HT.
  destruct (render_text_digits T HT) as (L & m & e & m3 & e10 & _ & _ & _ & Hm & He & Er).
  exists m3, e10, (ratio_text L). repeat (split; [assumption|]).
  unfold page_text. rewrite Er. reflexivity.
Qed.

Lemma text_block_on_domain_witness :
  exists (m3 e10 : Z) (ratio : string),
    (100 <= m3 <= 999)%Z /\ (25 <= e10 <= 27)%Z /\
    render_text 9000 = Some {| tb_base := mantissa_str m3; tb_exponent := decimal e10;
                               tb_ratio := ratio |} /\
    page_text 9000 = Some (luminosity_markdown (mantissa_str m3) (decimal e10),
                           ratio_markdown ratio).
Proof. apply (text_block_on_domain 9000). lia. Defined.

Lemma Q2R_inject_Z (z : Z) : Q2R (inject_Z z) = IZR z.
Proof. unfold Q2R. cbn [Qnum Qden inject_Z]. lra. Qed.

(** The nearest three-digit decimal, over the reals, for an exponent
    of at least two. *)
Lemma sci_digits_nearest_R (n d m3 e10 : Z) :
  (0 < n)%Z -> (0 < d)%Z -> (2 <= e10)%Z -> sci_digits n d = (m3, e10) ->
  (- (IZR (10 ^ (e10 - 2)) / 2) <= IZR n / IZR d - IZR (m3 * 10 ^ (e10 - 2))
   <= IZR (10 ^ (e10 - 2)) / 2)%R.
Proof.
  intros Hn Hd He Es.
  pose proof (sci_digits_nearest n d m3 e10 Hn Hd Es) as H.
  change 10%Q with (inject_Z 10) in H.
  assert (Ep : (inject_Z 10 ^ (e10 - 2) == inject_Z (10 ^ (e10 - 2)))%Q)
    by (symmetry; apply Zpower_Qpower; lia).
  rewrite Ep in H.
  apply Qabs_Qle_condition in H as [H1 H2].
  apply Qle_Rle in H1, H2.
  assert (Hd0 : ~ (inject_Z d == 0)%Q) by (unfold Qeq; cbn; lia).
  rewrite Q2R_opp, Q2R_mult, Q2R_minus, Q2R_div, Q2R_mult, !Q2R_inject_Z in H1 by exact Hd0.
  rewrite Q2R_mult, Q2R_minus, Q2R_div, Q2R_mult, !Q2R_inject_Z in H2 by exact Hd0.
  replace (Q2R (1 # 2)) with (/ 2)%R in H1, H2 by (unfold Q2R; cbn; lra).
  rewrite mult_IZR. split; lra.
Qed.

(** X8: for every integer T in [3000, 12000] the number the page shows,
    mantissa times ten to the exponent, is within 0.51% of the real
    4 * pi * R^2 * sigma * T^4. *)
Theorem displayed_luminosity_accurate (T : Z) :
  (3000 <= T <= 12000)%Z ->
  exists (m3 e10 : Z) (ratio : string),
    render_text T = Some {| tb_base := mantissa_str m3; tb_exponent := decimal e10;
                            tb_ratio := ratio |} /\
    (2 <= e10)%Z /\
    (Rabs (IZR (m3 * 10 ^ (e10 - 2)) - stefan_boltzmann (IZR T))
       <= 0.0051 * stefan_boltzmann (IZR T))%R.
Proof.
  intros HT.
  destruct (render_text_digits T HT)
    as (L & m & e & m3 & e10 & EL & E & Es & Hm3 & He10 & Er).
  destruct (luminosity_value_bounds T HT) as (L' & m' & e' & EL' & E' & Hlo & Hhi).
  rewrite EL in EL'. injection EL' as <-. rewrite E in E'. injection E' as <- <-.
  exists m3, e10, (ratio_text L). split; [exact Er|]. split; [lia|].
  destruct (num_den_pos m e) as [Hn Hd].
  pose proof (sci_digits_nearest_R (num m e) (den e) m3 e10 Hn Hd ltac:(lia) Es) as Hnear.
  rewrite stefan_boltzmann_factor.
  assert (HX : (0 < formula_factor * T ^ 4)%Z)
    by (apply Z.mul_pos_pos; [reflexivity|apply Z.pow_pos_nonneg; lia]).
  assert (HP : (0 < 10 ^ (e10 - 2))%Z) by (apply Z.pow_pos_nonneg; lia).
  apply IZR_le in Hlo, Hhi. apply IZR_lt in HX, HP, Hd.
  rewrite !mult_IZR in Hlo, Hhi. rewrite mult_IZR in Hnear |- *.
  assert (Hm : (100 <= IZR m3)%R) by (apply IZR_le; lia).
  revert Hlo Hhi Hnear HX HP Hd Hm.
  rewrite mult_IZR.
  generalize (IZR (num m e)) (IZR (den e)) (IZR formula_factor * IZR (T ^ 4))%R
    (IZR (10 ^ (e10 - 2))) (IZR m3).
  intros n d X P M Hlo Hhi Hnear HX HP Hd HM.
  destruct PI_6_digits as [Plo Phi].
  assert (Hv : (3141592 / 1000000 * X <= n / d <= 3141593 / 1000000 * X)%R).
  { split.
    - apply Rmult_le_reg_r with d; [exact Hd|]. field_simplify; [|lra]. lra.
    - apply Rmult_le_reg_r with d; [exact Hd|]. field_simplify; [|lra]. lra. }
  assert (HMP : (100 * P <= M * P)%R) by (apply Rmult_le_compat_r; lra).
  assert (Hy : (3141592 / 1000000 * X < PI * X < 3141593 / 1000000 * X)%R)
    by (split; apply Rmult_lt_compat_r; lra).
  apply Rabs_le. split; lra.
Qed.

Lemma displayed_luminosity_accurate_witness :
  exists (m3 e10 : Z) (ratio : string),
    render_text 5778 = Some {| tb_base := mantissa_str m3; tb_exponent := decimal e10;
                               tb_ratio := ratio |} /\
    (2 <= e10)%Z /\
    (Rabs (IZR (m3 * 10 ^ (e10 - 2)) - stefan_boltzmann (IZR 5778))
       <= 0.0051 * stefan_boltzmann (IZR 5778))%R.
Proof. apply (displayed_luminosity_accurate 5778). lia. Defined.

(** ** Runs of a session *)

Lemma reachable_temperature (ss : gmap string Z) :
  reachable ss ->
  exists t : Z, read_T ss = Some t /\ (t = T_init \/ slider_offers t = true).
Proof.
  intros Hreach. induction Hreach as [|ss ss' _ IH Hstep].
  - exists T_init. split; [exact read_first_run|now left].
  - destruct IH as (t & Et & Ht). destruct Hstep as [ss v Hv|ss].
    + exists v. split; [apply read_after_move|now right].
    + exists t. split; [now apply read_init_session_Some|exact Ht].
Qed.

(** X9: the guard of lines 20-21 keeps the temperature that is
    stored: whatever value [v] sits under T_current (6000 from the
    slider, say), any number of reruns of the initialisation leaves the
    whole session state as it is, and T_current still reads [v]; the
    default is never written over it. *)
Theorem rerun_keeps_session (ss : gmap string Z) (v : Z) (n : nat) :
  Nat.iter n init_session (<["T_current" := v]> ss) = <["T_current" := v]> ss /\
  read_T (Nat.iter n init_session (<["T_current" := v]> ss)) = Some v.
Proof.
  assert (H : Nat.iter n init_session (<["T_current" := v]> ss) = <["T_current" := v]> ss).
  { induction n as [|k IH]; [reflexivity|]. rewrite Nat.iter_succ, IH.
    unfold init_session. rewrite lookup_insert_eq. reflexivity. }
  split; [exact H|]. rewrite H. unfold read_T. apply lookup_insert_eq.
Qed.

(** X10: the temperatures a session can store are exactly 5778 and
    the values 3000 + 10 k, 0 <= k <= 900, of the slider. *)
Theorem reachable_temperatures (t : Z) :
  (exists ss : gmap string Z, reachable ss /\ read_T ss = Some t)
  <-> t = 5778%Z \/ exists k : Z, (0 <= k <= 900)%Z /\ t = (3000 + 10 * k)%Z.
Proof.
  split.
  - intros (ss & Hreach & Et).
    destruct (reachable_temperature ss Hreach) as (t' & Et' & Ht').
    rewrite Et in Et'. injection Et' as <-.
    destruct Ht' as [->|Hv]; [now left|right]. now apply slider_offers_spec.
  - intros [->|Hk].
    + exists (init_session ∅). split; [apply first_run|exact read_first_run].
    + apply slider_offers_spec in Hk.
      exists (init_session (<["T_current" := t]> (init_session ∅))). split.
      * apply (next_run (init_session ∅)); [apply first_run|now apply slider_moved].
      * apply read_after_move.
Qed.



(** ** Quartic scaling, the ratio to the Sun, the colormap argument *)

Lemma luminosity_doubles_domain :
  Z_forall_between 1 6000 luminosity_doubles_at = true.
Proof. vm_compute. reflexivity. Qed.

(** X11: quartic scaling is exact in binary64: for 1 <= T <= 6000,
    luminosity(2 * T) == 16 * luminosity(T). *)
Theorem luminosity_doubling (T : Z) :
  (1 <= T <= 6000)%Z ->
  exists L : float,
    luminosity T = Some L /\ luminosity (2 * T) = Some (16 * L)%float.
Proof.
  intros HT.
  pose proof (Z_forall_between_spec _ _ _ luminosity_doubles_domain T HT) as H.
  unfold luminosity_doubles_at in H.
  destruct (luminosity T) as [L|]; [|discriminate].
  destruct (luminosity (2 * T)) as [L2|]; [|discriminate].
  apply FloatAxioms.Leibniz.eqb_spec in H as ->. now exists L.
Qed.

Lemma luminosity_doubling_witness :
  exists L : float,
    luminosity 3000 = Some L /\ luminosity (2 * 3000) = Some (16 * L)%float.
Proof. apply (luminosity_doubling 3000). lia. Defined.

Lemma ratio_reads_one_domain :
  Z_forall_between 3000 12000 ratio_reads_one_at = true.
Proof. vm_compute. reflexivity. Qed.

(** X12: on the domain the sentence about the Sun reads 1.0 times
    exactly for 5699 <= T <= 5842. *)
Theorem ratio_reads_one (T : Z) :
  (3000 <= T <= 12000)%Z ->
  exists tb : text_block,
    render_text T = Some tb /\
    (tb_ratio tb = "1.0" <-> (5699 <= T <= 5842)%Z).
Proof.
  intros HT.
  destruct (render_text_digits T HT) as (L & m & e & m3 & e10 & EL & _ & _ & _ & _ & Er).
  eexists. split; [exact Er|]. cbn [tb_ratio].
  pose proof (Z_forall_between_spec _ _ _ ratio_reads_one_domain T HT) as H.
  unfold ratio_reads_one_at in H. rewrite EL in H.
  apply Bool.eqb_prop in H. rewrite <- String.eqb_eq, H.
  rewrite andb_true_iff, !Z.leb_le. reflexivity.
Qed.

Lemma ratio_reads_one_witness :
  exists tb : text_block,
    render_text 5778 = Some tb /\
    (tb_ratio tb = "1.0" <-> (5699 <= 5778 <= 5842)%Z).
Proof. apply (ratio_reads_one 5778). lia. Defined.

Lemma normalized_in_unit_domain :
  Z_forall_between 3000 12000 normalized_in_unit_at = true.
Proof. vm_compute. reflexivity. Qed.

(** X13: for every integer T in [T_min, T_max] the float passed to the
    colormap lies in [0, 1], so the colormap never falls back to its
    under or over colours. *)
Theorem colormap_argument_in_unit_interval
    (RGBA : Type) (RdYlBu : float -> RGBA) (T : Z) :
  (T_min <= T <= T_max)%Z ->
  exists x : float,
    color_current RdYlBu T = Some (RdYlBu x) /\
    (0 <=? x)%float = true /\ (x <=? 1)%float = true.
Proof.
  intros HT.
  pose proof (Z_forall_between_spec _ _ _ normalized_in_unit_domain T HT) as H.
  unfold normalized_in_unit_at in H. unfold color_current.
  destruct (int_truediv (T - T_min) (T_max - T_min)) as [x|]; [|discriminate].
  apply andb_prop in H as [H0 H1]. now exists x.
Qed.

Lemma colormap_argument_in_unit_interval_witness :
  exists x : float,
    color_current (fun x : float => x) 7500 = Some x /\
    (0 <=? x)%float = true /\ (x <=? 1)%float = true.
Proof.
  apply (colormap_argument_in_unit_interval float (fun x => x) 7500).
  unfold T_min, T_max. lia.
Defined.

(** ** When the text block is shown *)

(** X14: the text block is produced exactly for the temperatures
    within the slider's bounds: for every integer T in [T_min, T_max]
    nothing raises on the way, and for any other T the script stops
    before the text, at luminosity or at the slider. *)
Theorem text_block_iff_within_bounds (T : Z) :
  (exists tb : text_block, render_text T = Some tb) <-> (T_min <= T <= T_max)%Z.
Proof.
  split.
  - intros [tb E]. unfold render_text in E.
    destruct (luminosity T); [|discriminate].
    destruct (slider_accepts T) eqn:Hs; [|discriminate].
    unfold slider_accepts in Hs. apply andb_prop in Hs as [H1 H2].
    apply Z.leb_le in H1, H2. lia.
  - unfold T_min, T_max. intros HT.
    destruct (render_text_digits T HT) as (L & m & e & m3 & e10 & _ & _ & _ & _ & _ & Er).
    eexists. exact Er.
Qed.

(** * The luminosity and the colours on ints and floats *)

(** ** Rounding to binary64: the error *)

Section Binary64Error.
Local Open Scope Z_scope.

(** Rounding a mantissa of at least 53 bits in the normal range: the
    result is a normal number that differs from the mantissa by at most
    one unit of the bits shifted out. *)
Lemma binary_round_aux_error (s : bool) (mx : positive) (ex : Z) (l : location) :
  53 <= Zpos (digits2_pos mx) ->
  -1021 <= Zpos (digits2_pos mx) + ex <= 1023 ->
  exists m' e',
    binary_round_aux prec emax s (Zpos mx) ex l = S754_finite s m' e' /\
    Zpos (digits2_pos m') = 53 /\
    ex + Zpos (digits2_pos mx) - 53 <= e' <= ex + Zpos (digits2_pos mx) - 52 /\
    Zpos mx - 2 ^ (Zpos (digits2_pos mx) - 53) <= Zpos m' * 2 ^ (e' - ex)
      <= Zpos mx + 2 ^ (Zpos (digits2_pos mx) - 53).
Proof.
  pose proof (digits2_pos_bounds mx) as [Blo Bhi].
  unfold binary_round_aux, shr_fexp. cbn [Zdigits2].
  generalize dependent (Zpos (digits2_pos mx)). intros d Blo Bhi Hd Hsum.
  rewrite fexp_eq. replace (Z.max (d + ex - 53) (-1074) - ex) with (d - 53) by lia.
  destruct (shr_spec (shr_record_of_loc (Zpos mx) l) ex (d - 53)) as [Em1 Ee1];
    [destruct l as [|[]]; cbn; lia|lia|].
  destruct (shr _ ex (d - 53)) as [mrs1 e1]. cbn [fst snd] in Em1, Ee1. subst e1.
  replace (shr_m (shr_record_of_loc (Zpos mx) l)) with (Zpos mx) in Em1
    by (destruct l as [|[]]; reflexivity).
  assert (Hp : 0 < 2 ^ (d - 53)) by (apply Z.pow_pos_nonneg; lia).
  assert (Hm1 : 2 ^ 52 <= shr_m mrs1 < 2 ^ 53).
  { rewrite Em1. split.
    - apply Z.div_le_lower_bound; [exact Hp|].
      rewrite Z.mul_comm, <- Z.pow_add_r by lia.
      replace (52 + (d - 53)) with (d - 1) by lia. exact Blo.
    - apply Z.div_lt_upper_bound; [exact Hp|].
      rewrite Z.mul_comm, <- Z.pow_add_r by lia.
      replace (53 + (d - 53)) with d by lia. exact Bhi. }
  assert (Hdm : shr_m mrs1 * 2 ^ (d - 53) <= Zpos mx < (shr_m mrs1 + 1) * 2 ^ (d - 53)).
  { rewrite Em1. pose proof (Z.div_mod (Zpos mx) (2 ^ (d - 53)) ltac:(lia)) as E.
    pose proof (Z.mod_pos_bound (Zpos mx) (2 ^ (d - 53)) Hp) as Hr. nia. }
  pose proof (round_nearest_even_bounds (shr_m mrs1) (loc_of_shr_record mrs1)) as Hr.
  set (m2 := round_nearest_even (shr_m mrs1) (loc_of_shr_record mrs1)) in *.
  destruct m2 as [|q|q] eqn:Eq2; [cbn in *; lia| |cbn in *; lia].
  cbn [Zdigits2]. rewrite fexp_eq.
  destruct (Z_lt_le_dec (Zpos q) (2 ^ 53)) as [Hlt|Hge].
  - rewrite (digits2_pos_unique q 53) by (cbn in *; lia).
    replace (Z.max (53 + (ex + (d - 53)) - 53) (-1074) - (ex + (d - 53))) with 0 by lia.
    cbn [shr shr_record_of_loc shr_m].
    replace (ex + (d - 53) <=? emax - prec) with true
      by (symmetry; apply Z.leb_le; change (emax - prec) with 971; lia).
    exists q, (ex + (d - 53)). split; [reflexivity|]. split; [|split; [lia|]].
    + apply digits2_pos_unique. cbn in *; lia.
    + replace (ex + (d - 53) - ex) with (d - 53) by lia. nia.
  - assert (Eq : Zpos q = 2 ^ 53) by lia.
    rewrite (digits2_pos_unique q 54) by (rewrite Eq; cbn; lia).
    replace (Z.max (54 + (ex + (d - 53)) - 53) (-1074) - (ex + (d - 53))) with 1 by lia.
    cbn [shr SpecFloat.iter_pos shr_record_of_loc].
    assert (Hq : shr_m (shr_1 {| shr_m := Zpos q; shr_r := false; shr_s := false |}) = 2 ^ 52).
    { rewrite shr_1_m by (cbn; lia). cbn [shr_m]. rewrite Eq. reflexivity. }
    destruct (shr_m (shr_1 _)) as [|q'|q'] eqn:Eq'; try (cbn in Hq; lia).
    replace (ex + (d - 53) + 1 <=? emax - prec) with true
      by (symmetry; apply Z.leb_le; change (emax - prec) with 971; lia).
    exists q', (ex + (d - 53) + 1). split; [reflexivity|]. split; [|split; [lia|]].
    + apply digits2_pos_unique. rewrite Hq. cbn. lia.
    + replace (ex + (d - 53) + 1 - ex) with (Z.succ (d - 53)) by lia.
      rewrite Z.pow_succ_r by lia. rewrite Hq.
      assert (E53 : 2 ^ 52 * (2 * 2 ^ (d - 53)) = 2 ^ 53 * 2 ^ (d - 53))
        by (change (2 ^ 53) with (2 ^ 52 * 2); ring).
      rewrite E53. rewrite <- Eq. nia.
Qed.
End Binary64Error.

Section PowersOfTwo.
Local Open Scope Q_scope.

Lemma Qpow2_pos (e : Z) : 0 < 2 ^ e.
Proof. apply Qpower_0_lt. reflexivity. Qed.

Lemma Qpow2_plus (a b : Z) : 2 ^ (a + b) == 2 ^ a * 2 ^ b.
Proof. apply Qpower_plus. discriminate. Qed.

Lemma Qpow2_inject (n : Z) : (0 <= n)%Z -> inject_Z (2 ^ n) == 2 ^ n.
Proof. intros Hn. rewrite Zpower_Qpower by exact Hn. reflexivity. Qed.

Lemma Qpow2_le (a b : Z) : (a <= b)%Z -> 2 ^ a <= 2 ^ b.
Proof.
  intros Hab. replace b with (a + (b - a))%Z by lia.
  rewrite Qpow2_plus, <- (Qpow2_inject (b - a)) by lia.
  assert (H1 : (1 <= 2 ^ (b - a))%Z) by (pose proof (Z.pow_pos_nonneg 2 (b - a)); lia).
  assert (H1' : 1 <= inject_Z (2 ^ (b - a))) by (unfold Qle; cbn; lia).
  pose proof (Qpow2_pos a) as Hp.
  setoid_replace (2 ^ a) with (2 ^ a * 1) using relation Qeq at 1 by ring.
  apply Qmult_le_l; assumption.
Qed.

Lemma Qpow2_lt (a b : Z) : (a < b)%Z -> 2 ^ a < 2 ^ b.
Proof.
  intros Hab. replace b with (a + (b - a))%Z by lia.
  rewrite Qpow2_plus, <- (Qpow2_inject (b - a)) by lia.
  assert (H1 : (2 ^ 1 <= 2 ^ (b - a))%Z) by (apply Z.pow_le_mono_r; lia).
  assert (H1' : 1 < inject_Z (2 ^ (b - a))) by (unfold Qlt; cbn in *; lia).
  pose proof (Qpow2_pos a) as Hp.
  setoid_replace (2 ^ a) with (2 ^ a * 1) using relation Qeq at 1 by ring.
  apply Qmult_lt_l; assumption.
Qed.

Lemma Qpow2_lt_inv (a b : Z) : 2 ^ a < 2 ^ b -> (a < b)%Z.
Proof.
  intros H. destruct (Z_lt_le_dec a b) as [|Hle]; [assumption|].
  apply Qpow2_le in Hle. exfalso. apply (Qlt_irrefl (2 ^ a)).
  eapply Qlt_le_trans; eassumption.
Qed.

Lemma Qabs_scale (A B P tol : Q) :
  0 <= P -> Qabs (A - B) <= tol * B -> Qabs (A * P - B * P) <= tol * (B * P).
Proof.
  intros HP H.
  setoid_replace (A * P - B * P) with ((A - B) * P) using relation Qeq by ring.
  rewrite Qabs_Qmult, (Qabs_pos P HP), Qmult_assoc.
  apply Qmult_le_compat_r; assumption.
Qed.

End PowersOfTwo.

(** The value of a positive finite binary64 number. *)
Lemma SF2Q_pos (m : positive) (e : Z) :
  SF2Q (S754_finite false m e) = (inject_Z (Zpos m) * 2 ^ e)%Q.
Proof. reflexivity. Qed.

Lemma SF2Q_pos_bounds (m : positive) (e : Z) :
  (2 ^ (Zpos (digits2_pos m) - 1 + e) <= SF2Q (S754_finite false m e)
   /\ SF2Q (S754_finite false m e) < 2 ^ (Zpos (digits2_pos m) + e))%Q.
Proof.
  rewrite SF2Q_pos. pose proof (digits2_pos_bounds m) as [Blo Bhi].
  pose proof (Qpow2_pos e) as Hp.
  rewrite !Qpow2_plus, <- !(Qpow2_inject (Zpos (digits2_pos m) - 1)), <- !(Qpow2_inject (Zpos (digits2_pos m))) by lia.
  split.
  - apply Qmult_le_compat_r; [|apply Qlt_le_weak, Hp]. unfold Qle. cbn. lia.
  - apply Qmult_lt_compat_r; [exact Hp|]. unfold Qlt. cbn. lia.
Qed.

(** Rounding to binary64 in the normal range: the relative error is at
    most 2^-52. *)
Lemma binary_round_aux_rel (s : bool) (mx : positive) (ex : Z) (l : location) :
  (53 <= Zpos (digits2_pos mx))%Z ->
  (-1021 <= Zpos (digits2_pos mx) + ex <= 1023)%Z ->
  exists m' e',
    binary_round_aux prec emax s (Zpos mx) ex l = S754_finite s m' e' /\
    Zpos (digits2_pos m') = 53%Z /\
    (ex + Zpos (digits2_pos mx) - 53 <= e' <= ex + Zpos (digits2_pos mx) - 52)%Z /\
    (Qabs (inject_Z (Zpos m') * 2 ^ e' - inject_Z (Zpos mx) * 2 ^ ex)
     <= eps52 * (inject_Z (Zpos mx) * 2 ^ ex))%Q.
Proof.
  intros Hd Hsum.
  destruct (binary_round_aux_error s mx ex l Hd Hsum) as (m' & e' & E & Hd' & He' & Hlo & Hhi).
  exists m', e'. repeat (split; [assumption|]).
  pose proof (digits2_pos_bounds mx) as [Blo _].
  set (n := (Zpos (digits2_pos mx) - 53)%Z) in *.
  assert (Hn : (0 <= n)%Z) by lia.
  replace (Zpos (digits2_pos mx) - 1)%Z with (52 + n)%Z in Blo by lia.
  rewrite Z.pow_add_r in Blo by lia.
  assert (Hk : (0 <= e' - ex)%Z) by lia.
  replace e' with ((e' - ex) + ex)%Z at 1 by lia.
  rewrite Qpow2_plus, <- (Qpow2_inject (e' - ex)) by exact Hk.
  rewrite Qmult_assoc, <- inject_Z_mult.
  apply Qabs_scale; [apply Qlt_le_weak, Qpow2_pos|].
  apply Qabs_Qle_condition. unfold eps52, Qle, Qminus, Qplus, Qopp, Qmult. cbn.
  change (2 ^ 52)%Z with 4503599627370496%Z in Blo. 
  split; lia.
Qed.

Lemma digits2_pos_mul_53 (mx my : positive) :
  Zpos (digits2_pos mx) = 53%Z -> Zpos (digits2_pos my) = 53%Z ->
  (105 <= Zpos (digits2_pos (mx * my)) <= 106)%Z.
Proof.
  intros Hdx Hdy.
  pose proof (digits2_pos_bounds mx) as Bx. pose proof (digits2_pos_bounds my) as By.
  rewrite Hdx in Bx. rewrite Hdy in By.
  pose proof (digits2_pos_bounds (mx * my)) as [Blo Bhi].
  rewrite Pos2Z.inj_mul in Blo, Bhi.
  change (53 - 1)%Z with 52%Z in *.
  assert (H1 : (2 ^ 104 <= Zpos mx * Zpos my)%Z) by (change (2 ^ 104)%Z with (2 ^ 52 * 2 ^ 52)%Z; nia).
  assert (H2 : (Zpos mx * Zpos my < 2 ^ 106)%Z) by (change (2 ^ 106)%Z with (2 ^ 53 * 2 ^ 53)%Z; nia).
  split.
  - destruct (Z_lt_le_dec (Zpos (digits2_pos (mx * my))) 105) as [H|H]; [|exact H].
    assert (2 ^ Zpos (digits2_pos (mx * my)) <= 2 ^ 104)%Z by (apply Z.pow_le_mono_r; lia). lia.
  - destruct (Z_lt_le_dec 106 (Zpos (digits2_pos (mx * my)))) as [H|H]; [|exact H].
    assert (2 ^ 106 <= 2 ^ (Zpos (digits2_pos (mx * my)) - 1))%Z by (apply Z.pow_le_mono_r; lia).
    lia.
Qed.

(** The product of two normal numbers, in the normal range: a normal
    number within the relative error 2^-52 of the exact product. *)
Lemma SFmul_error (x y : spec_float) (lx hx ly hy : Z) :
  normal_pos x lx hx -> normal_pos y ly hy ->
  (-1126 <= lx + ly)%Z -> (hx + hy <= 917)%Z ->
  normal_pos (SFmul prec emax x y) (lx + ly + 52) (hx + hy + 54) /\
  (Qabs (SF2Q (SFmul prec emax x y) - SF2Q x * SF2Q y) <= eps52 * (SF2Q x * SF2Q y))%Q.
Proof.
  intros (mx & ex & -> & Hdx & Hex) (my & ey & -> & Hdy & Hey) Hlo Hhi.
  cbn [SFmul xorb].
  pose proof (digits2_pos_mul_53 mx my Hdx Hdy) as Hd.
  destruct (binary_round_aux_rel false (mx * my) (ex + ey) loc_Exact)
    as (m' & e' & E & Hd' & He' & Herr); [lia..|].
  rewrite E. split.
  - exists m', e'. split; [reflexivity|]. split; [exact Hd'|lia].
  - rewrite !SF2Q_pos.
    setoid_replace (inject_Z (Z.pos mx) * 2 ^ ex * (inject_Z (Z.pos my) * 2 ^ ey))%Q
      with (inject_Z (Zpos (mx * my)) * 2 ^ (ex + ey))%Q using relation Qeq; [exact Herr|].
    rewrite Pos2Z.inj_mul, inject_Z_mult, Qpow2_plus. ring.
Qed.

Lemma mul_error (x y : float) (lx hx ly hy : Z) :
  normal_pos (Prim2SF x) lx hx -> normal_pos (Prim2SF y) ly hy ->
  (-1126 <= lx + ly)%Z -> (hx + hy <= 917)%Z ->
  normal_pos (Prim2SF (x * y)) (lx + ly + 52) (hx + hy + 54) /\
  (Qabs (F2Q (x * y) - F2Q x * F2Q y) <= eps52 * (F2Q x * F2Q y))%Q.
Proof.
  intros Hx Hy Hlo Hhi. unfold F2Q. rewrite mul_spec.
  exact (SFmul_error _ _ lx hx ly hy Hx Hy Hlo Hhi).
Qed.

(** A finite float whose value lies in [2^a, 2^b), not below the
    normal range, is a normal number; the bounds give its exponent. *)
Lemma finite_value_normal (x : float) (a b : Z) :
  is_finite x = true -> (-1022 <= a)%Z ->
  (2 ^ a <= F2Q x)%Q -> (F2Q x < 2 ^ b)%Q ->
  normal_pos (Prim2SF x) (a - 52) (b - 53).
Proof.
  intros Hfin Ha Hlo Hhi.
  assert (Hpos : (0 < F2Q x)%Q) by (eapply Qlt_le_trans; [apply (Qpow2_pos a)|exact Hlo]).
  destruct (positive_value_cases x Hfin Hpos) as (m & e & E).
  pose proof (Prim2SF_valid x) as Hv. rewrite E in Hv.
  unfold SpecFloat.valid_binary, SpecFloat.bounded, SpecFloat.canonical_mantissa in Hv.
  apply andb_prop in Hv as [Hc He]. apply Z.eqb_eq in Hc. apply Z.leb_le in He.
  rewrite fexp_eq in Hc.
  unfold F2Q in Hlo, Hhi. rewrite E in Hlo, Hhi.
  pose proof (SF2Q_pos_bounds m e) as [Vlo Vhi].
  assert (H1 : (a < Zpos (digits2_pos m) + e)%Z).
  { apply Qpow2_lt_inv. eapply Qle_lt_trans; eassumption. }
  assert (H2 : (Zpos (digits2_pos m) - 1 + e < b)%Z).
  { apply Qpow2_lt_inv. eapply Qle_lt_trans; eassumption. }
  exists m, e. split; [exact E|]. lia.
Qed.



(** Rounding an integer mantissa of any length in the normal range. *)
Lemma binary_round_rel (s : bool) (p : positive) (e : Z) :
  (-1021 <= Zpos (digits2_pos p) + e <= 1023)%Z ->
  exists m' e',
    binary_round prec emax s p e = S754_finite s m' e' /\
    Zpos (digits2_pos m') = 53%Z /\
    (e + Zpos (digits2_pos p) - 53 <= e' <= e + Zpos (digits2_pos p) - 52)%Z /\
    (Qabs (inject_Z (Zpos m') * 2 ^ e' - inject_Z (Zpos p) * 2 ^ e)
     <= eps52 * (inject_Z (Zpos p) * 2 ^ e))%Q.
Proof.
  intros Hsum. pose proof (digits2_pos_bounds p) as [Blo Bhi].
  unfold binary_round, shl_align. rewrite fexp_eq, Z.max_l by lia.
  destruct (Zpos (digits2_pos p) + e - 53 - e)%Z as [|j|j] eqn:Ej.
  - apply binary_round_aux_rel; lia.
  - apply binary_round_aux_rel; lia.
  - assert (Hj : Zpos (digits2_pos (Pos.iter xO p j)) = 53%Z).
    { apply digits2_pos_unique. rewrite iter_xO_shift.
      replace 53%Z with (Zpos (digits2_pos p) + Zpos j)%Z at 2 by lia.
      replace (53 - 1)%Z with (Zpos (digits2_pos p) - 1 + Zpos j)%Z by lia.
      rewrite !Z.pow_add_r by lia.
      assert (0 < 2 ^ Zpos j)%Z by (apply Z.pow_pos_nonneg; lia). nia. }
    destruct (binary_round_aux_rel s (Pos.iter xO p j) (Zpos (digits2_pos p) + e - 53) loc_Exact)
      as (m' & e' & E & Hd & He & Herr); [lia|lia|].
    exists m', e'. split; [exact E|]. split; [exact Hd|]. split; [lia|].
    setoid_replace (inject_Z (Zpos p) * 2 ^ e)%Q
      with (inject_Z (Zpos (Pos.iter xO p j)) * 2 ^ (Zpos (digits2_pos p) + e - 53))%Q
      using relation Qeq; [exact Herr|].
    rewrite iter_xO_shift, inject_Z_mult, (Qpow2_inject (Zpos j)) by lia.
    rewrite <- Qmult_assoc, <- Qpow2_plus.
    replace (Zpos j + (Zpos (digits2_pos p) + e - 53))%Z with e by lia. reflexivity.
Qed.

Lemma shl_align_fst (m : positive) (e e' : Z) :
  (e' <= e)%Z -> Zpos (fst (shl_align m e e')) = (Zpos m * 2 ^ (e - e'))%Z.
Proof.
  intros He. unfold shl_align.
  destruct (e' - e)%Z as [|j|j] eqn:Ej; cbn [fst]; try lia.
  - replace (e - e')%Z with 0%Z by lia. lia.
  - rewrite iter_xO_shift. f_equal. f_equal. lia.
Qed.

Lemma digits2_pos_le (p : positive) (k : Z) :
  (Zpos p < 2 ^ k)%Z -> (Zpos (digits2_pos p) <= k)%Z.
Proof.
  intros H. pose proof (digits2_pos_bounds p) as [Blo _].
  destruct (Z_lt_le_dec k (Zpos (digits2_pos p))) as [Hlt|Hle]; [|exact Hle].
  assert (2 ^ k <= 2 ^ (Zpos (digits2_pos p) - 1))%Z by (apply Z.pow_le_mono_r; lia). lia.
Qed.

(** The difference of two positive numbers, the first the larger and
    with the larger exponent: zero, or a normal number within the
    relative error 2^-52 of the exact difference. *)
Lemma SFsub_error (mx my : positive) (ex ey k : Z) :
  (ey <= ex)%Z -> (-1022 <= ey)%Z -> (k + ey <= 1023)%Z ->
  (0 <= Zpos mx * 2 ^ (ex - ey) - Zpos my < 2 ^ k)%Z ->
  let x := S754_finite false mx ex in
  let y := S754_finite false my ey in
  (SFsub prec emax x y = S754_zero false /\ (SF2Q x - SF2Q y == 0)%Q) \/
  (normal_pos (SFsub prec emax x y) (ey - 52) (ey + k - 52) /\
   (Qabs (SF2Q (SFsub prec emax x y) - (SF2Q x - SF2Q y)) <= eps52 * (SF2Q x - SF2Q y))%Q).
Proof.
  intros Hexy Hey Hk [HD0 HDk] x y.
  assert (Ev : (SF2Q x - SF2Q y
                == inject_Z (Zpos mx * 2 ^ (ex - ey) - Zpos my) * 2 ^ ey)%Q).
  { unfold x, y. rewrite !SF2Q_pos.
    unfold Zminus. rewrite inject_Z_plus, inject_Z_opp, inject_Z_mult.
    rewrite (Qpow2_inject (ex + - ey)) by lia.
    replace ex with ((ex + - ey) + ey)%Z at 1 by lia. rewrite Qpow2_plus. ring. }
  unfold x, y. cbn [SFsub cond_Zopp].
  rewrite Z.min_r by lia.
  rewrite (shl_align_fst mx ex ey Hexy), (shl_align_fst my ey ey (Z.le_refl _)).
  rewrite Z.sub_diag, Z.mul_1_r.
  fold x y. rewrite Ev.
  destruct (Zpos mx * 2 ^ (ex - ey) - Zpos my)%Z as [|D|D] eqn:ED; [|clear HD0|lia].
  - left. split; [reflexivity|]. ring.
  - right. cbn [binary_normalize].
    pose proof (digits2_pos_le D k HDk) as Hd.
    assert (Hd1 : (1 <= Zpos (digits2_pos D))%Z) by lia.
    destruct (binary_round_rel false D ey) as (m' & e' & E & Hd' & He' & Herr); [lia|].
    rewrite E. split.
    + exists m', e'. split; [reflexivity|]. split; [exact Hd'|lia].
    + rewrite SF2Q_pos. exact Herr.
Qed.

Lemma Qabs_ratio (A M d : Z) (K : positive) :
  (0 < d)%Z -> (- M <= (A * d - M) * Zpos K <= M)%Z ->
  (Qabs (inject_Z A - inject_Z M / inject_Z d) <= (1 # K) * (inject_Z M / inject_Z d))%Q.
Proof.
  intros Hd [H1 H2].
  assert (Hd' : ~ (inject_Z d == 0)%Q) by (unfold Qeq; cbn; lia).
  assert (Hz : (0 < inject_Z d * inject_Z (Zpos K))%Q) by (unfold Qlt; cbn; lia).
  assert (Er : (inject_Z M / inject_Z d * inject_Z d == inject_Z M)%Q) by (field; exact Hd').
  assert (EK : ((1 # K) * inject_Z (Zpos K) == 1)%Q) by (unfold Qeq; cbn; lia).
  apply Qabs_Qle_condition. split.
  - apply (Qmult_le_r _ _ _ Hz).
    setoid_replace (- ((1 # K) * (inject_Z M / inject_Z d)) * (inject_Z d * inject_Z (Zpos K)))%Q
      with (- ((1 # K) * inject_Z (Zpos K) * (inject_Z M / inject_Z d * inject_Z d)))%Q
      using relation Qeq by ring.
    setoid_replace ((inject_Z A - inject_Z M / inject_Z d) * (inject_Z d * inject_Z (Zpos K)))%Q
      with ((inject_Z A * inject_Z d - inject_Z M / inject_Z d * inject_Z d) * inject_Z (Zpos K))%Q
      using relation Qeq by ring.
    rewrite Er, EK. rewrite <- inject_Z_mult. unfold Qle. cbn. lia.
  - apply (Qmult_le_r _ _ _ Hz).
    setoid_replace ((1 # K) * (inject_Z M / inject_Z d) * (inject_Z d * inject_Z (Zpos K)))%Q
      with ((1 # K) * inject_Z (Zpos K) * (inject_Z M / inject_Z d * inject_Z d))%Q
      using relation Qeq by ring.
    setoid_replace ((inject_Z A - inject_Z M / inject_Z d) * (inject_Z d * inject_Z (Zpos K)))%Q
      with ((inject_Z A * inject_Z d - inject_Z M / inject_Z d * inject_Z d) * inject_Z (Zpos K))%Q
      using relation Qeq by ring.
    rewrite Er, EK. rewrite <- inject_Z_mult. unfold Qle. cbn. lia.
Qed.

Lemma div_quotient_bounds (m1 m2 q r : Z) :
  (2 ^ 52 <= m1 < 2 ^ 53)%Z -> (2 ^ 52 <= m2 < 2 ^ 53)%Z ->
  (m1 * 2 ^ 53 = m2 * q + r)%Z -> (0 <= r < m2)%Z ->
  (2 ^ 52 <= q < 2 ^ 54)%Z.
Proof.
  intros H1 H2 E Hr.
  change (2 ^ 54)%Z with 18014398509481984%Z. change (2 ^ 53)%Z with 9007199254740992%Z in *.
  change (2 ^ 52)%Z with 4503599627370496%Z in *.
  split; nia.
Qed.

(** The quotient of two positive normal numbers, in the normal range:
    a normal number within the relative error 2^-51 of the exact
    quotient. *)
Lemma SFdiv_error (x y : spec_float) (lx hx ly hy : Z) :
  normal_pos x lx hx -> normal_pos y ly hy ->
  (-1021 <= lx - hy)%Z -> (hx - ly <= 1022)%Z ->
  normal_pos (SFdiv prec emax x y) (lx - hy - 53) (hx - ly - 51) /\
  (Qabs (SF2Q (SFdiv prec emax x y) - SF2Q x / SF2Q y) <= eps51 * (SF2Q x / SF2Q y))%Q.
Proof.
  intros (m1 & e1 & -> & Hd1 & He1) (m2 & e2 & -> & Hd2 & He2) Hlo Hhi.
  pose proof (digits2_pos_bounds m1) as B1. pose proof (digits2_pos_bounds m2) as B2.
  rewrite Hd1 in B1. rewrite Hd2 in B2. change (53 - 1)%Z with 52%Z in *.
  cbn [SFdiv xorb]. unfold SFdiv_core_binary. cbn [Zdigits2].
  rewrite Hd1, Hd2, fexp_eq.
  replace (Z.min (Z.max (53 + e1 - (53 + e2) - 53) (-1074)) (e1 - e2))
    with (e1 - e2 - 53)%Z by lia.
  replace (e1 - e2 - (e1 - e2 - 53))%Z with 53%Z by lia.
  rewrite Z.shiftl_mul_pow2 by lia.
  pose proof (Z_div_mod (Zpos m1 * 2 ^ 53) (Zpos m2) ltac:(lia)) as Hdiv.
  destruct (Z.div_eucl (Zpos m1 * 2 ^ 53) (Zpos m2)) as [q r]. destruct Hdiv as [Ediv Hr].
  pose proof (div_quotient_bounds _ _ _ _ B1 B2 Ediv Hr) as Hq.
  destruct q as [|q|q]; [cbn in Hq; lia| |cbn in Hq; lia].
  assert (Hdq : (53 <= Zpos (digits2_pos q) <= 54)%Z).
  { split; [apply (digits2_pos_ge q 52); lia|apply digits2_pos_le; lia]. }
  destruct (binary_round_aux_error false q (e1 - e2 - 53) (new_location (Zpos m2) r))
    as (m' & e' & E & Hd' & He' & Herr); [lia|lia|].
  rewrite E. split.
  - exists m', e'. split; [reflexivity|]. split; [exact Hd'|lia].
  - rewrite !SF2Q_pos.
    assert (Hk : (0 <= e' - (e1 - e2 - 53))%Z) by lia.
    set (k := (e' - (e1 - e2 - 53))%Z) in *.
    assert (Ev : (inject_Z (Zpos m1) * 2 ^ e1 / (inject_Z (Zpos m2) * 2 ^ e2)
                  == inject_Z (Zpos m1 * 2 ^ 53) / inject_Z (Zpos m2) * 2 ^ (e1 - e2 - 53))%Q).
    { rewrite inject_Z_mult, (Qpow2_inject 53) by lia.
      replace e1 with (53 + (e1 - e2 - 53) + e2)%Z at 1 by lia.
      rewrite !Qpow2_plus.
      pose proof (Qpow2_pos e2) as P2.
      assert (~ (2 ^ e2 == 0)%Q) by (intros H0; rewrite H0 in P2; discriminate).
      assert (~ (inject_Z (Zpos m2) == 0)%Q) by (unfold Qeq; cbn; lia).
      field. split; assumption. }
    rewrite Ev.
    replace e' with (k + (e1 - e2 - 53))%Z at 1 by lia.
    rewrite Qpow2_plus, <- (Qpow2_inject k), Qmult_assoc, <- inject_Z_mult by exact Hk.
    apply Qabs_scale; [apply Qlt_le_weak, Qpow2_pos|].
    apply (Qabs_ratio (Zpos m' * 2 ^ k) (Zpos m1 * 2 ^ 53) (Zpos m2) 2251799813685248); [lia|].
    destruct Herr as [Elo Ehi].
    revert Elo Ehi Ediv Hq. generalize (Zpos m' * 2 ^ k)%Z. intros A Elo Ehi Ediv Hq.
    change (2 ^ 53)%Z with 9007199254740992%Z in *.
    change (2 ^ 54)%Z with 18014398509481984%Z in *.
    change (2 ^ 52)%Z with 4503599627370496%Z in *.
    assert (Hn : Zpos (digits2_pos q) = 53%Z \/ Zpos (digits2_pos q) = 54%Z) by lia.
    destruct Hn as [Hn|Hn]; rewrite Hn in Elo, Ehi; cbn in Elo, Ehi.
    + split; nia.
    + assert (9007199254740992 <= Zpos q)%Z.
      { pose proof (digits2_pos_bounds q) as [Bq _]. rewrite Hn in Bq. exact Bq. }
      split; nia.
Qed.

(** ** Fourth powers of rationals *)

Section Q4.
Local Open Scope Q_scope.

Lemma Qpow4 (a : Q) : a ^ 4 == (a * a) * (a * a).
Proof. reflexivity. Qed.

Lemma Qsquare_le (a b : Q) : 0 <= a -> a <= b -> a * a <= b * b.
Proof. intros Ha Hab. nra. Qed.

Lemma Qpow4_le (a b : Q) : 0 <= a -> a <= b -> a ^ 4 <= b ^ 4.
Proof.
  intros Ha Hab. rewrite !Qpow4.
  pose proof (Qsquare_le a b Ha Hab).
  apply Qsquare_le; [nra|assumption].
Qed.

Lemma Qpow4_pos (a : Q) : 0 < a -> 0 < a ^ 4.
Proof.
  intros Ha. rewrite Qpow4. assert (H : 0 < a * a) by (apply Qmult_lt_0_compat; assumption).
  apply Qmult_lt_0_compat; assumption.
Qed.

End Q4.

(** ** The luminosity of an int or a float *)

(** The bounds of the constant factor against pi, and the room that a
    gap of 1e-9 between two temperatures leaves. *)
Lemma lum_constants :
  (3.141592 * inject_Z formula_factor <= lum_lo)%Q /\
  (lum_hi <= 3.141593 * inject_Z formula_factor)%Q /\
  (lum_hi < lum_lo * (1 + 1e-9 / 3000))%Q /\ (0 < lum_lo)%Q.
Proof.
  split; [apply Qle_bool_iff; vm_compute; reflexivity|].
  split; [apply Qle_bool_iff; vm_compute; reflexivity|].
  split; vm_compute; reflexivity.
Qed.

Lemma stefan_boltzmann_real (t : Rdefinitions.R) :
  stefan_boltzmann t = (PI * (IZR formula_factor * t ^ 4))%R.
Proof. unfold stefan_boltzmann, formula_factor. lra. Qed.

Lemma Q2R_pow4 (q : Q) : Q2R (q ^ 4) = (Q2R q ^ 4)%R.
Proof. rewrite (Qeq_eqR _ _ (Qpow4 q)), !Q2R_mult. ring. Qed.

(** The constant factor times a float close to [X]. *)
Lemma factor_product_bounds (p : float) (X : Q) :
  is_finite p = true ->
  (1e-75 ^ 4 <= X)%Q -> (X <= 1e73 ^ 4)%Q ->
  (Qabs (F2Q p - X) <= eps50 * X)%Q ->
  normal_pos (Prim2SF (4 * np_pi * R_squared * sigma * p)%float) (-1011) 958 /\
  (lum_lo * X <= F2Q (4 * np_pi * R_squared * sigma * p)%float)%Q /\
  (F2Q (4 * np_pi * R_squared * sigma * p)%float <= lum_hi * X)%Q.
Proof.
  intros Hfin HXlo HXhi Hacc.
  apply Qabs_Qle_condition in Hacc as [Hp1 Hp2].
  assert (Ha : (2 ^ (-997) <= (1 - eps50) * 1e-75 ^ 4)%Q)
    by (apply Qle_bool_iff; vm_compute; reflexivity).
  assert (Hb : ((1 + eps50) * 1e73 ^ 4 < 2 ^ 971)%Q) by (vm_compute; reflexivity).
  assert (Hn : normal_pos (Prim2SF p) (-997 - 52) (971 - 53)).
  { apply finite_value_normal; [exact Hfin|lia| |].
    - eapply Qle_trans; [exact Ha|]. unfold eps50 in *.
      revert Hp1 HXlo. generalize (F2Q p) (1e-75 ^ 4)%Q. intros; lra.
    - eapply Qle_lt_trans; [|exact Hb]. unfold eps50 in *.
      revert Hp2 HXhi. generalize (F2Q p) (1e73 ^ 4)%Q. intros; lra. }
  destruct (mul_error (4 * np_pi * R_squared * sigma)%float p (-14) (-14) _ _
              luminosity_factor_normal Hn ltac:(lia) ltac:(lia)) as [HnL Herr].
  split; [exact HnL|].
  apply Qabs_Qle_condition in Herr as [He1 He2].
  unfold lum_lo, lum_hi.
  assert (HC : (0 < F2Q (4 * np_pi * R_squared * sigma)%float)%Q) by (vm_compute; reflexivity).
  assert (HX : (0 < X)%Q) by (eapply Qlt_le_trans; [|exact HXlo]; reflexivity).
  revert He1 He2 Hp1 Hp2 HC HX. unfold eps50, eps52.
  generalize (F2Q (4 * np_pi * R_squared * sigma * p)%float)
    (F2Q (4 * np_pi * R_squared * sigma)%float) (F2Q p).
  intros L C P He1 He2 Hp1 Hp2 HC HX.
  assert (H1 : ((1 - (1 # 1125899906842624)) * X * C <= P * C)%Q)
    by (apply Qmult_le_compat_r; lra).
  assert (H2 : (P * C <= (1 + (1 # 1125899906842624)) * X * C)%Q)
    by (apply Qmult_le_compat_r; lra).
  split.
  - setoid_replace ((1 - (1 # 4503599627370496)) * (1 - (1 # 1125899906842624)) * C * X)%Q
      with ((1 - (1 # 4503599627370496)) * ((1 - (1 # 1125899906842624)) * X * C))%Q
      using relation Qeq by ring.
    lra.
  - setoid_replace ((1 + (1 # 4503599627370496)) * (1 + (1 # 1125899906842624)) * C * X)%Q
      with ((1 + (1 # 4503599627370496)) * ((1 + (1 # 1125899906842624)) * X * C))%Q
      using relation Qeq by ring.
    lra.
Qed.

(** [float(n)] of a positive int below 2^1023: a float within the
    relative error 2^-52 of [n]. *)
Lemma float_of_int_error (n : Z) :
  (0 < n < 2 ^ 1023)%Z ->
  exists p : float,
    float_of_int n = Some p /\ is_finite p = true /\
    (Qabs (F2Q p - inject_Z n) <= eps52 * inject_Z n)%Q.
Proof.
  intros [Hn Hk]. destruct n as [|q|q]; try lia.
  pose proof (digits2_pos_le q 1023 Hk) as Hd.
  destruct (binary_round_rel false q 0) as (m' & e' & E & Hd' & He' & Herr); [lia|].
  assert (Hvalid : valid_binary (S754_finite false m' e') = true).
  { apply (normal_pos_valid _ (-1074) 971); [lia|lia|].
    exists m', e'. split; [reflexivity|]. split; [exact Hd'|lia]. }
  unfold float_of_int. cbn [binary_normalize]. rewrite E.
  eexists. split; [reflexivity|].
  split.
  - apply (Prim2SF_finite_is_finite _ false m' e'). apply Prim2SF_SF2Prim. exact Hvalid.
  - unfold F2Q. rewrite Prim2SF_SF2Prim by exact Hvalid. rewrite SF2Q_pos.
    change (2 ^ 0)%Q with 1%Q in Herr. rewrite Qmult_1_r in Herr. exact Herr.
Qed.

Lemma inject_Z_pow4 (n : Z) : (inject_Z (n ^ 4) == inject_Z n ^ 4)%Q.
Proof. rewrite Qpow4, <- !inject_Z_mult. apply inject_Z_injective. ring. Qed.

(** The luminosity of an int or a float between 1e-75 and 1e73: a
    normal number between [lum_lo] and [lum_hi] times the fourth power. *)
Lemma luminosity_of_bounds (power4 : float -> float) (t : temperature) :
  (1e-75 <= value t)%Q -> (value t <= 1e73)%Q -> power4_accurate_at power4 t ->
  exists L : float,
    luminosity_of power4 t = Some L /\
    normal_pos (Prim2SF L) (-1011) 958 /\
    (lum_lo * value t ^ 4 <= F2Q L)%Q /\ (F2Q L <= lum_hi * value t ^ 4)%Q.
Proof.
  intros Hlo Hhi Hacc.
  assert (HXlo : (1e-75 ^ 4 <= value t ^ 4)%Q) by (apply Qpow4_le; [discriminate|exact Hlo]).
  assert (HXhi : (value t ^ 4 <= 1e73 ^ 4)%Q).
  { apply Qpow4_le; [|exact Hhi]. eapply Qle_trans; [|exact Hlo]. discriminate. }
  destruct t as [n|x]; cbn [luminosity_of value power4_accurate_at] in *.
  - assert (Hn : (0 < n ^ 4 < 2 ^ 1023)%Z).
    { assert (Hn1 : (1 <= n)%Z).
      { destruct (Z_lt_le_dec n 1) as [H|H]; [|exact H]. exfalso.
        assert (H0 : (inject_Z n <= 0)%Q) by (unfold Qle; cbn; lia).
        apply (Qlt_irrefl 0). eapply Qlt_le_trans; [|exact H0].
        eapply Qlt_le_trans; [|exact Hlo]. reflexivity. }
      assert (Hn2 : (n <= 10 ^ 73)%Z).
      { assert (E73 : (1e73 == inject_Z (10 ^ 73))%Q) by (vm_compute; reflexivity).
        rewrite E73 in Hhi. rewrite <- Zle_Qle in Hhi. exact Hhi. }
      split; [apply Z.pow_pos_nonneg; lia|].
      apply Z.le_lt_trans with ((10 ^ 73) ^ 4)%Z.
      - apply Z.pow_le_mono_l. lia.
      - apply Z.ltb_lt. vm_compute. reflexivity. }
    destruct (float_of_int_error (n ^ 4) Hn) as (p & Ep & Hfin & Herr).
    unfold luminosity. rewrite Ep. eexists. split; [reflexivity|].
    apply factor_product_bounds; [exact Hfin|exact HXlo|exact HXhi|].
    rewrite inject_Z_pow4 in Herr.
    assert (HX : (0 <= inject_Z n ^ 4)%Q).
    { eapply Qle_trans; [|exact HXlo]. discriminate. }
    eapply Qle_trans; [exact Herr|]. apply Qmult_le_compat_r; [discriminate|exact HX].
  - destruct Hacc as [Hfin Herr]. eexists. split; [reflexivity|].
    apply factor_product_bounds; assumption.
Qed.

(** The power by repeated squaring is accurate at the second sample of
    the curve, 3000 + 9000 / 399. *)
Lemma sample_accurate_at :
  power4_accurate_at power4_by_squaring (Float 3022.556390977444).
Proof. split; [vm_compute; reflexivity|apply Qle_bool_iff; vm_compute; reflexivity]. Qed.

(** C1: for every temperature T in [3000, 12000], a Python int or a
    float, luminosity(T) is a finite float whose value is
    4 * pi * R^2 * sigma * T^4, with R = 6.96e8 and sigma = 5.67e-8,
    within a relative tolerance of 1e-6.  For a float, the power T**4
    of the C library is taken to be accurate to four units in the last
    place. *)
Theorem luminosity_matches_formula (power4 : float -> float) (t : temperature) :
  (3000 <= value t)%Q -> (value t <= 12000)%Q -> power4_accurate_at power4 t ->
  exists L : float,
    luminosity_of power4 t = Some L /\ is_finite L = true /\
    (Rabs (Q2R (F2Q L) - stefan_boltzmann (Q2R (value t)))
       <= 1e-6 * stefan_boltzmann (Q2R (value t)))%R.
Proof.
  intros Hlo Hhi Hacc.
  destruct (luminosity_of_bounds power4 t) as (L & EL & (m & e & E & _) & Blo & Bhi);
    [eapply Qle_trans; [|exact Hlo]; discriminate
    |eapply Qle_trans; [exact Hhi|]; discriminate|exact Hacc|].
  exists L. split; [exact EL|].
  split; [exact (Prim2SF_finite_is_finite _ false m e E)|].
  destruct lum_constants as (Clo & Chi & _ & _).
  assert (HX : (0 < value t ^ 4)%Q).
  { apply Qpow4_pos. eapply Qlt_le_trans; [|exact Hlo]. reflexivity. }
  assert (Hlo' : (3.141592 * inject_Z formula_factor * value t ^ 4 <= F2Q L)%Q).
  { eapply Qle_trans; [|exact Blo]. apply Qmult_le_compat_r; [exact Clo|apply Qlt_le_weak, HX]. }
  assert (Hhi' : (F2Q L <= 3.141593 * inject_Z formula_factor * value t ^ 4)%Q).
  { eapply Qle_trans; [exact Bhi|]. apply Qmult_le_compat_r; [exact Chi|apply Qlt_le_weak, HX]. }
  apply Qle_Rle in Hlo', Hhi'. apply Qlt_Rlt in HX.
  rewrite !Q2R_mult, Q2R_pow4, Q2R_inject_Z in Hlo', Hhi'.
  rewrite Q2R_pow4 in HX. replace (Q2R 0) with 0%R in HX by (unfold Q2R; cbn; lra).
  replace (Q2R 3.141592) with (3141592 / 1000000)%R in Hlo' by (unfold Q2R; cbn; lra).
  replace (Q2R 3.141593) with (3141593 / 1000000)%R in Hhi' by (unfold Q2R; cbn; lra).
  rewrite stefan_boltzmann_real.
  assert (Hk : (0 < IZR formula_factor)%R) by (apply IZR_lt; reflexivity).
  assert (HkX : (0 < IZR formula_factor * Q2R (value t) ^ 4)%R)
    by (apply Rmult_lt_0_compat; assumption).
  rewrite Rmult_assoc in Hlo', Hhi'.
  revert Hlo' Hhi' HkX.
  generalize (IZR formula_factor * Q2R (value t) ^ 4)%R (Q2R (F2Q L)).
  intros X l Hlo' Hhi' HX'.
  destruct PI_6_digits as [Plo Phi].
  apply Rabs_le. split; nra.
Qed.

Lemma luminosity_matches_formula_witness :
  exists L : float,
    luminosity_of power4_by_squaring (Float 3022.556390977444) = Some L /\
    is_finite L = true /\
    (Rabs (Q2R (F2Q L) - stefan_boltzmann (Q2R (value (Float 3022.556390977444))))
       <= 1e-6 * stefan_boltzmann (Q2R (value (Float 3022.556390977444))))%R.
Proof.
  apply (luminosity_matches_formula power4_by_squaring (Float 3022.556390977444)).
  - vm_compute. discriminate.
  - vm_compute. discriminate.
  - exact sample_accurate_at.
Defined.

(** ** Monotonicity on ints and floats *)




(** ** Totality *)

Lemma in_total_range_value (t : temperature) :
  in_total_range t -> (1e-75 <= value t)%Q /\ (value t <= 1e73)%Q.
Proof.
  destruct t as [n|x]; cbn [in_total_range value]; [|tauto].
  intros [H1 H2]. split.
  - apply Qle_trans with (inject_Z 1); [discriminate|]. rewrite <- Zle_Qle. exact H1.
  - assert (E73 : (1e73 == inject_Z (10 ^ 73))%Q) by (vm_compute; reflexivity).
    rewrite E73, <- Zle_Qle. exact H2.
Qed.

(** At 10^80 the conversion of T**4 to float raises OverflowError. *)
Lemma luminosity_overflows_at_1e80 :
  ~ (exists L : float,
       luminosity (10 ^ 80) = Some L /\ is_finite L = true /\ (0 <? L)%float = true).
Proof. intros (L & E & _). vm_compute in E. discriminate. Qed.

(** C8 (amended): luminosity raises nothing and returns a finite
    positive float for every int T with 1 <= T <= 10^73 and for every
    float T with 1e-75 <= T <= 1e73 on which the power of the C library
    is accurate to four units in the last place; these ranges reach far
    outside [3000, 12000]. *)
Theorem luminosity_total_up_to_1e73 (power4 : float -> float) (t : temperature) :
  in_total_range t -> power4_accurate_at power4 t ->
  exists L : float,
    luminosity_of power4 t = Some L /\ is_finite L = true /\ (0 <? L)%float = true.
Proof.
  intros Hr Hacc. destruct (in_total_range_value t Hr) as [Hlo Hhi].
  destruct (luminosity_of_bounds power4 t Hlo Hhi Hacc) as (L & EL & (m & e & E & _) & _).
  exists L. split; [exact EL|].
  split; [exact (Prim2SF_finite_is_finite _ false m e E)|exact (Prim2SF_positive _ m e E)].
Qed.

Lemma luminosity_total_up_to_1e73_witness :
  exists L : float,
    luminosity_of power4_by_squaring (Float 1e-20) = Some L /\
    is_finite L = true /\ (0 <? L)%float = true.
Proof.
  apply (luminosity_total_up_to_1e73 power4_by_squaring (Float 1e-20)).
  - split; vm_compute; discriminate.
  - split; [vm_compute; reflexivity|apply Qle_bool_iff; vm_compute; reflexivity].
Defined.

(** ** The colour normalisation *)

Lemma Prim2SF_zero_is_finite (x : float) (s : bool) :
  Prim2SF x = S754_zero s -> is_finite x = true.
Proof.
  intros E. destruct (is_finite x) eqn:Hfin; [reflexivity|].
  destruct (not_finite_cases x Hfin) as [H|[s' H]]; rewrite H in E; discriminate.
Qed.

Lemma positive_value_finite (x : float) : (0 < F2Q x)%Q -> is_finite x = true.
Proof.
  intros H. unfold F2Q in H.
  destruct (Prim2SF x) as [s|s| |s m e] eqn:E; try discriminate H.
  exact (Prim2SF_finite_is_finite x s m e E).
Qed.

(** [(T - 3000.0) / 9000.0] in binary64 for a float [T] of the domain:
    one rounding in the difference, one in the quotient. *)
Lemma normalized_float (t : float) :
  (3000 <= F2Q t)%Q -> (F2Q t <= 12000)%Q ->
  is_finite ((t - 3000) / 9000)%float = true /\
  (Qabs (F2Q ((t - 3000) / 9000)%float - (F2Q t - 3000) / 9000)
   <= eps50 * ((F2Q t - 3000) / 9000))%Q.
Proof.
  intros Hlo Hhi.
  assert (Hfin : is_finite t = true).
  { apply positive_value_finite. eapply Qlt_le_trans; [|exact Hlo]. reflexivity. }
  assert (Hn : normal_pos (Prim2SF t) (11 - 52) (14 - 53)).
  { apply finite_value_normal; [exact Hfin|lia| |].
    - eapply Qle_trans; [|exact Hlo]. discriminate.
    - eapply Qle_lt_trans; [exact Hhi|]. reflexivity. }
  destruct Hn as (mx & ex & E & Hdx & Hex).
  unfold F2Q in Hlo, Hhi |- *. rewrite div_spec, sub_spec, E in *.
  change (Prim2SF 3000) with (S754_finite false 6597069766656000 (-41)).
  change (Prim2SF 9000) with (S754_finite false 4947802324992000 (-39)).
  unfold SF64div, SF64sub.
  assert (Hk : (0 <= ex - -41)%Z) by lia.
  assert (HD : (0 <= Zpos mx * 2 ^ (ex - -41) - 6597069766656000 < 2 ^ 55)%Z).
  { rewrite SF2Q_pos in Hlo, Hhi.
    replace ex with ((ex - -41) + -41)%Z in Hlo, Hhi by lia.
    rewrite Qpow2_plus, <- (Qpow2_inject (ex - -41)), Qmult_assoc, <- inject_Z_mult in Hlo, Hhi
      by exact Hk.
    revert Hlo Hhi. generalize (Zpos mx * 2 ^ (ex - -41))%Z. intros A Hlo Hhi.
    change (2 ^ (-41))%Q with (1 # 2199023255552)%Q in Hlo, Hhi.
    change (2 ^ 55)%Z with 36028797018963968%Z.
    unfold Qle in Hlo, Hhi. cbn in Hlo, Hhi. lia. }
  assert (E3 : (SF2Q (S754_finite false 6597069766656000 (-41)) == 3000)%Q) by reflexivity.
  assert (E9 : (SF2Q (S754_finite false 4947802324992000 (-39)) == 9000)%Q) by reflexivity.
  destruct (SFsub_error mx 6597069766656000 ex (-41) 55 ltac:(lia) ltac:(lia) ltac:(lia) HD)
    as [[Ez Ev]|[Hz Herr]].
  - rewrite Ez. cbn [SFdiv xorb SF2Q].
    split.
    + apply (Prim2SF_zero_is_finite _ false). rewrite div_spec, sub_spec, E.
      change (Prim2SF 3000) with (S754_finite false 6597069766656000 (-41)).
      unfold SF64div, SF64sub. rewrite Ez. reflexivity.
    + rewrite E3 in Ev. rewrite Ev. vm_compute. discriminate.
  - destruct (SFdiv_error _ (S754_finite false 4947802324992000 (-39)) _ _ (-39) (-39) Hz)
      as [(m' & e' & Ey & _) Herr'];
      [exists 4947802324992000%positive, (-39)%Z; repeat split; lia|lia|lia|].
    split.
    + apply (Prim2SF_finite_is_finite _ false m' e').
      rewrite div_spec, sub_spec, E.
      change (Prim2SF 3000) with (S754_finite false 6597069766656000 (-41)).
      exact Ey.
    + rewrite E3 in Herr. rewrite E9 in Herr'.
      assert (Hw : (0 <= SF2Q (S754_finite false mx ex) - 3000)%Q) by lra.
      apply Qabs_Qle_condition in Herr as [H1 H2]. apply Qabs_Qle_condition in Herr' as [H3 H4].
      unfold Qdiv in *. change (/ 9000)%Q with (1 # 9000)%Q in *.
      revert H1 H2 H3 H4 Hw. unfold eps50, eps51, eps52.
      generalize (SF2Q (S754_finite false mx ex))
        (SF2Q (SFsub prec emax (S754_finite false mx ex) (S754_finite false 6597069766656000 (-41))))
        (SF2Q (SFdiv prec emax (SFsub prec emax (S754_finite false mx ex)
                 (S754_finite false 6597069766656000 (-41)))
                 (S754_finite false 4947802324992000 (-39)))).
      intros v z y H1 H2 H3 H4 Hw.
      apply Qabs_Qle_condition. split; lra.
Qed.

(** On the ints of the domain the quotient is checked one by one. *)
Lemma normalized_near_domain :
  Z_forall_between 3000 12000 normalized_near_at = true.
Proof. vm_compute. reflexivity. Qed.

(** C6: the colour for a temperature T in [3000, 12000], the int of
    the slider (line 36) or a float of the curve (line 60), is the
    colormap looked up at a finite float within the relative error
    2^-50 of the linear normalization (T - T_min) / (T_max - T_min);
    for T = 3000 that is the colormap's value at 0.0 and for T = 12000
    its value at 1.0, on both paths. *)
Theorem color_current_normalized
    (RGBA : Type) (RdYlBu : float -> RGBA) (t : temperature) :
  (3000 <= value t)%Q -> (value t <= 12000)%Q ->
  (exists x : float,
     color_of RdYlBu t = Some (RdYlBu x) /\ is_finite x = true /\
     (Qabs (F2Q x - (value t - inject_Z T_min) / inject_Z (T_max - T_min))
      <= eps50 * ((value t - inject_Z T_min) / inject_Z (T_max - T_min)))%Q)
  /\ color_of RdYlBu (Int 3000) = Some (RdYlBu 0%float)
  /\ color_of RdYlBu (Int 12000) = Some (RdYlBu 1%float)
  /\ color_of RdYlBu (Float 3000) = Some (RdYlBu 0%float)
  /\ color_of RdYlBu (Float 12000) = Some (RdYlBu 1%float).
Proof.
  intros Hlo Hhi.
  change (inject_Z T_min) with 3000%Q. change (inject_Z (T_max - T_min)) with 9000%Q.
  split; [|split; [|split; [|split]]].
  - destruct t as [n|x]; cbn [color_of value] in *.
    + assert (Hn : (3000 <= n <= 12000)%Z).
      { change 3000%Q with (inject_Z 3000) in Hlo. change 12000%Q with (inject_Z 12000) in Hhi.
        rewrite <- Zle_Qle in Hlo, Hhi. lia. }
      pose proof (Z_forall_between_spec _ _ _ normalized_near_domain n Hn) as H.
      unfold normalized_near_at in H. unfold color_current.
      destruct (int_truediv (n - T_min) (T_max - T_min)) as [x|]; [|discriminate].
      apply andb_prop in H as [Hfin Hnear]. apply Qle_bool_iff in Hnear.
      exists x. split; [reflexivity|]. split; assumption.
    + unfold colors_at.
      replace (float_of_int T_min) with (Some 3000%float) by (vm_compute; reflexivity).
      replace (float_of_int (T_max - T_min)) with (Some 9000%float) by (vm_compute; reflexivity).
      eexists. split; [reflexivity|]. apply normalized_float; assumption.
  - unfold color_of, color_current.
    replace (int_truediv (3000 - T_min) (T_max - T_min)) with (Some 0%float)
      by (vm_compute; reflexivity).
    reflexivity.
  - unfold color_of, color_current.
    replace (int_truediv (12000 - T_min) (T_max - T_min)) with (Some 1%float)
      by (vm_compute; reflexivity).
    reflexivity.
  - unfold color_of, colors_at.
    replace (float_of_int T_min) with (Some 3000%float) by (vm_compute; reflexivity).
    replace (float_of_int (T_max - T_min)) with (Some 9000%float) by (vm_compute; reflexivity).
    replace ((3000 - 3000) / 9000)%float with 0%float by (vm_compute; reflexivity).
    reflexivity.
  - unfold color_of, colors_at.
    replace (float_of_int T_min) with (Some 3000%float) by (vm_compute; reflexivity).
    replace (float_of_int (T_max - T_min)) with (Some 9000%float) by (vm_compute; reflexivity).
    replace ((12000 - 3000) / 9000)%float with 1%float by (vm_compute; reflexivity).
    reflexivity.
Qed.

Lemma color_current_normalized_witness :
  (exists x : float,
     color_of (fun x : float => x) (Float 3022.556390977444) = Some x /\ is_finite x = true /\
     (Qabs (F2Q x - (value (Float 3022.556390977444) - inject_Z T_min)
                    / inject_Z (T_max - T_min))
      <= eps50 * ((value (Float 3022.556390977444) - inject_Z T_min)
                  / inject_Z (T_max - T_min)))%Q)
  /\ color_of (fun x : float => x) (Int 3000) = Some 0%float
  /\ color_of (fun x : float => x) (Int 12000) = Some 1%float
  /\ color_of (fun x : float => x) (Float 3000) = Some 0%float
  /\ color_of (fun x : float => x) (Float 12000) = Some 1%float.
Proof.
  apply (color_current_normalized float (fun x => x) (Float 3022.556390977444));
    vm_compute; discriminate.
Defined.
